(** * blinkOS core loop: a shallow embedding of [blinkos.cpp]

    The file follows [libraries/blinkos/src/blinkos.cpp]: the IR checksum
    ([crccheck]), the inbound packet pipeline ([processPendingIRPackets]),
    the millisecond clock ([timer_256us_callback_sei]), the button hand-off
    ([grabAndClearButtonState]), the sleep path ([sleep], [postponeSleep])
    and the orchestrator ([run]).

    Machine integers are [Z] with the wrap-around written out, arrays are
    lists read with [!!!] and written with [<[_:=_]>], the C globals are the
    fields of one record [world], and every call into a collaborator
    (IR driver, pixel driver, power driver, user callback) is appended to a
    call log so that "consumed", "forwarded" and "went to sleep" are
    observable. *)

From Stdlib Require Import ZArith Lia List Bool.
From stdpp Require Import base tactics list numbers.
Import ListNotations.
Local Open Scope Z_scope.

(** ** Machine integers *)

(** [uint8_t] *)
Definition wrap8 (z : Z) : Z := z mod 256.
(** [unsigned] on AVR: 16 bits *)
Definition wrap16 (z : Z) : Z := z mod 65536.
(** [millis_t], a [uint32_t] *)
Definition wrap32 (z : Z) : Z := z mod 4294967296.

(** ** IR checksum *)

(** One round of the bit loop of avr-libc's [_crc8_ccitt_update]
    (<util/crc16.h>, polynomial x^8 + x^2 + x + 1):
    [if (data & 0x80) { data <<= 1; data ^= 0x07; } else { data <<= 1; }]
    on a [uint8_t]. *)
Definition crc8_ccitt_round (data : Z) : Z :=
  if negb (Z.land data 0x80 =? 0)
  then Z.lxor (wrap8 (Z.shiftl data 1)) 0x07
  else wrap8 (Z.shiftl data 1).

(** avr-libc's [_crc8_ccitt_update], after the C equivalent given in its
    documentation: [data = inCrc ^ inData], then eight rounds. *)
Definition _crc8_ccitt_update (inCrc inData : Z) : Z :=
  Nat.iter 8 crc8_ccitt_round (wrap8 (Z.lxor inCrc inData)).

(** [*p] for a pointer [p] at offset [off] of the byte array [mem].  A read
    past the end of the array has no defined value in C; it reads 0 here,
    and [crccheck] below records every offset it dereferences so that such
    reads can be ruled out. *)
Definition deref (mem : list Z) (off : nat) : Z := mem !!! off.

(** The loop of [crccheck]: [while (--len) { c = _crc8_ccitt_update(c, *data); data++; }].
    [len] is a [uint8_t], [data] is the current offset, [rd] the offsets
    dereferenced so far (newest first).  [None] is "fuel exhausted". *)
Fixpoint crccheck_loop (fuel : nat) (mem : list Z) (c len : Z) (data : nat)
    (rd : list nat) : option (Z * nat * list nat) :=
  match fuel with
  | O => None
  | S fuel' =>
      let len' := wrap8 (len - 1) in
      if len' =? 0 then Some (c, data, rd)
      else crccheck_loop fuel' mem (_crc8_ccitt_update c (deref mem data)) len'
             (S data) (data :: rd)
  end.

(** [crccheck(data, len)], with the offsets it read, oldest first.  The
    [uint8_t] counter reaches 0 within 256 decrements, so 256 is enough fuel
    ([crccheck_loop_fuel]). *)
Definition crccheck_traced (mem : list Z) (len : Z) : option (bool * list nat) :=
  match crccheck_loop 256 mem 0xFF (wrap8 len) 0 [] with
  | Some (c, data, rd) => Some (deref mem data =? c, rev (data :: rd))
  | None => None
  end.

Definition crccheck (mem : list Z) (len : Z) : bool :=
  match crccheck_traced mem len with
  | Some (r, _) => r
  | None => false
  end.

(** The checksum in the spec's words: the 8-bit CCITT CRC, seed 0xFF, over a
    byte sequence. *)
Definition crc8_ccitt (bytes : list Z) : Z :=
  fold_left _crc8_ccitt_update bytes 0xFF.

(** A frame is well-formed in the spec's words when its final byte is the
    checksum of all the bytes before it. *)
Definition checksum_ok (frame : list Z) : bool :=
  match frame !! (length frame - 1)%nat with
  | Some b => b =? crc8_ccitt (take (length frame - 1) frame)
  | None => false
  end.

(** ** Data of the loop *)

(** The structs are declared in the headers; their fields here are the ones
    [blinkos.cpp] reads and writes. *)

(** [buttonstate_t]: event flags, click counter, current-down. *)
Record buttonstate_t := mk_buttonstate {
  bitflags : Z;
  clickcount : Z;
  down : Z
}.

(** An address handed to userland: [NULL], or [irDataPacketBuffer(f) + off]. *)
Inductive ptr :=
| NULL
| PacketBuffer (f : nat) (off : Z).

(** [ptr + n] *)
Definition ptr_add (p : ptr) (n : Z) : ptr :=
  match p with
  | NULL => NULL
  | PacketBuffer f off => PacketBuffer f (off + n)
  end.

(** One entry of [loopstate_in.ir_data_buffers]. *)
Record ir_data_buffer_t := mk_ir_data_buffer {
  data : ptr;
  len : Z;
  ready_flag : Z
}.

(** [loopstate_in_t]; the fields [buttonstate] and [millis] of the C struct
    are [in_buttonstate] and [in_millis] here, the plain names being taken
    by the globals. *)
Record loopstate_in_t := mk_loopstate_in {
  ir_data_buffers : list ir_data_buffer_t;
  in_buttonstate : buttonstate_t;
  in_millis : Z;
  woke_flag : Z
}.

(** [pixelColor_t]: the [reserved] bit that userland uses as "changed", and
    the colour proper. *)
Record pixelColor_t := mk_pixelColor {
  reserved : bool;
  rgb : Z
}.

Record loopstate_out_t := mk_loopstate_out {
  colors : list pixelColor_t
}.

(** Modelled from the spec: the IR driver's per-face state behind
    [irDataIsPacketReady], [irDataPacketLen], [irDataPacketBuffer] and
    [irDataMarkPacketRead] (blinkos_irdata, not part of this file): a
    "packet ready" flag, a length and the raw receive buffer. *)
Record ir_face := mk_ir_face {
  packet_ready : bool;
  packet_len : Z;
  packet_buffer : list Z
}.

#[global] Instance ir_face_inhabited : Inhabited ir_face :=
  populate (mk_ir_face false 0 []).
#[global] Instance ir_data_buffer_inhabited : Inhabited ir_data_buffer_t :=
  populate (mk_ir_data_buffer NULL 0 0).
#[global] Instance pixelColor_inhabited : Inhabited pixelColor_t :=
  populate (mk_pixelColor false 0).

(** The call log: the calls that leave the core (drivers, user callbacks),
    the millisecond callback, and the calls of [crccheck] with the face and
    the length they were made for. *)
Inductive call :=
| Call_irDataMarkPacketRead (f : nat)
| Call_crccheck (f : nat) (len : Z)
| Call_pixel_bufferedSetPixel (f : nat) (c : pixelColor_t)
| Call_pixel_displayBufferedPixels
| Call_loopEntry (i : loopstate_in_t)
| Call_setupEntry
| Call_power_sleep
| Call_pixel_enable
| Call_pixel_disable
| Call_ir_enable
| Call_ir_disable
| Call_button_ISR_on
| Call_button_ISR_off
| Call_button_enable_pu
| Call_timer_1000us_callback_sei.

(** The globals of [blinkos.cpp] and of the collaborators it talks to.
    [calls] is the call log, newest first. *)
Record world := mk_world {
  loopstate_in : loopstate_in_t;
  loopstate_out : loopstate_out_t;
  sleepTimer : Z;
  buttonstate : buttonstate_t;
  step_us : Z;
  millis : Z;
  millis_snapshot : Z;
  ir : list ir_face;
  pixel_buffer : list pixelColor_t;
  calls : list call
}.

Definition set_loopstate_in (x : loopstate_in_t) (w : world) : world :=
  mk_world x (loopstate_out w) (sleepTimer w) (buttonstate w) (step_us w)
    (millis w) (millis_snapshot w) (ir w) (pixel_buffer w) (calls w).
Definition set_loopstate_out (x : loopstate_out_t) (w : world) : world :=
  mk_world (loopstate_in w) x (sleepTimer w) (buttonstate w) (step_us w)
    (millis w) (millis_snapshot w) (ir w) (pixel_buffer w) (calls w).
Definition set_sleepTimer (x : Z) (w : world) : world :=
  mk_world (loopstate_in w) (loopstate_out w) x (buttonstate w) (step_us w)
    (millis w) (millis_snapshot w) (ir w) (pixel_buffer w) (calls w).
Definition set_buttonstate (x : buttonstate_t) (w : world) : world :=
  mk_world (loopstate_in w) (loopstate_out w) (sleepTimer w) x (step_us w)
    (millis w) (millis_snapshot w) (ir w) (pixel_buffer w) (calls w).
Definition set_step_us (x : Z) (w : world) : world :=
  mk_world (loopstate_in w) (loopstate_out w) (sleepTimer w) (buttonstate w) x
    (millis w) (millis_snapshot w) (ir w) (pixel_buffer w) (calls w).
Definition set_millis (x : Z) (w : world) : world :=
  mk_world (loopstate_in w) (loopstate_out w) (sleepTimer w) (buttonstate w)
    (step_us w) x (millis_snapshot w) (ir w) (pixel_buffer w) (calls w).
Definition set_millis_snapshot (x : Z) (w : world) : world :=
  mk_world (loopstate_in w) (loopstate_out w) (sleepTimer w) (buttonstate w)
    (step_us w) (millis w) x (ir w) (pixel_buffer w) (calls w).
Definition set_ir (x : list ir_face) (w : world) : world :=
  mk_world (loopstate_in w) (loopstate_out w) (sleepTimer w) (buttonstate w)
    (step_us w) (millis w) (millis_snapshot w) x (pixel_buffer w) (calls w).
Definition set_pixel_buffer (x : list pixelColor_t) (w : world) : world :=
  mk_world (loopstate_in w) (loopstate_out w) (sleepTimer w) (buttonstate w)
    (step_us w) (millis w) (millis_snapshot w) (ir w) x (calls w).
Definition set_calls (x : list call) (w : world) : world :=
  mk_world (loopstate_in w) (loopstate_out w) (sleepTimer w) (buttonstate w)
    (step_us w) (millis w) (millis_snapshot w) (ir w) (pixel_buffer w) x.

(** Record a call to a collaborator. *)
Definition log (c : call) (w : world) : world := set_calls (c :: calls w) w.

(** [for (uint8_t f = from; f < from + n; f++) body(f)].  The face counts
    are small constants, so the [uint8_t] counter does not wrap. *)
Fixpoint for_loop {St : Type} (n : nat) (from : nat) (body : nat -> St -> St)
    (s : St) : St :=
  match n with
  | O => s
  | S n' => for_loop n' (S from) body (body from s)
  end.

(** ** Collaborators *)

(** Modelled from the spec: [irDataIsPacketReady(f)], the driver's report of
    a complete inbound frame on face [f]. *)
Definition irDataIsPacketReady (w : world) (f : nat) : bool :=
  packet_ready (ir w !!! f).

(** Modelled from the spec: [irDataPacketLen(f)], the length of that frame. *)
Definition irDataPacketLen (w : world) (f : nat) : Z :=
  packet_len (ir w !!! f).

(** Modelled from the spec: [irDataPacketBuffer(f)], the bytes behind the
    pointer the driver returns. *)
Definition irDataPacketBuffer (w : world) (f : nat) : list Z :=
  packet_buffer (ir w !!! f).

(** Modelled from the spec: [irDataMarkPacketRead(f)] marks the frame on
    face [f] consumed, which frees the slot for a new frame. *)
Definition irDataMarkPacketRead (f : nat) (w : world) : world :=
  let face := ir w !!! f in
  log (Call_irDataMarkPacketRead f)
    (set_ir (<[f := mk_ir_face false (packet_len face) (packet_buffer face)]> (ir w)) w).

(** Modelled from the spec: [pixel_bufferedSetPixel(f, color)] forwards the
    colour of face [f] to the display buffer. *)
Definition pixel_bufferedSetPixel (f : nat) (color : pixelColor_t) (w : world) : world :=
  log (Call_pixel_bufferedSetPixel f color)
    (set_pixel_buffer (<[f := color]> (pixel_buffer w)) w).

(** Modelled from the spec: [updateMillisSnapshot()] copies the millisecond
    counter into the snapshot the main loop works with. *)
Definition updateMillisSnapshot (w : world) : world :=
  set_millis_snapshot (millis w) w.

(** Modelled from the spec: [incrementMillis1ms()] advances the millisecond
    counter, a [uint32_t], by one. *)
Definition incrementMillis1ms (w : world) : world :=
  set_millis (wrap32 (millis w + 1)) w.

(** Modelled from the spec: [Timer::set(ms)] of blinkos_timer, "a deadline
    value (current time + fixed timeout)". *)
Definition Timer_set (ms : Z) (w : world) : world :=
  set_sleepTimer (wrap32 (millis w + ms)) w.

(** Modelled from the spec: [Timer::isExpired()] of blinkos_timer, the
    deadline "compared against the clock snapshot", expired "at or after
    it". *)
Definition Timer_isExpired (w : world) : bool :=
  sleepTimer w <=? millis_snapshot w.

(** ** The core *)

(** Modelled from the spec: [MILLIS_PER_SECOND] is declared outside this
    file; the ten-minute timeout is 600,000 ticks of one millisecond. *)
Definition MILLIS_PER_SECOND : Z := 1000.
(** [#define SLEEP_TIMEOUT_SECONDS (10*60)] *)
Definition SLEEP_TIMEOUT_SECONDS : Z := 10 * 60.
(** [(millis_t) SLEEP_TIMEOUT_SECONDS * MILLIS_PER_SECOND] *)
Definition SLEEP_TIMEOUT_MS : Z := wrap32 (wrap32 SLEEP_TIMEOUT_SECONDS * MILLIS_PER_SECOND).

(** What [updateButtonState1ms(buttonstate)] does at one tick: it updates
    the shared state from the raw sample and reports whether sleep is to be
    postponed.  The debounce routine is external; each tick carries its
    behaviour. *)
Definition debounce := buttonstate_t -> bool * buttonstate_t.

(** What [loopEntry(&loopstate_in, &loopstate_out)] does at one iteration:
    it reads the input record (a pointer to const) and the receive buffers
    the record points into, and writes the output record. *)
Definition user_loop := loopstate_in_t -> list ir_face -> loopstate_out_t -> loopstate_out_t.

Definition set_woke_flag (x : Z) (i : loopstate_in_t) : loopstate_in_t :=
  mk_loopstate_in (ir_data_buffers i) (in_buttonstate i) (in_millis i) x.
Definition set_in_millis (x : Z) (i : loopstate_in_t) : loopstate_in_t :=
  mk_loopstate_in (ir_data_buffers i) (in_buttonstate i) x (woke_flag i).
Definition set_in_buttonstate (x : buttonstate_t) (i : loopstate_in_t) : loopstate_in_t :=
  mk_loopstate_in (ir_data_buffers i) x (in_millis i) (woke_flag i).
Definition set_ir_data_buffers (x : list ir_data_buffer_t) (i : loopstate_in_t) : loopstate_in_t :=
  mk_loopstate_in x (in_buttonstate i) (in_millis i) (woke_flag i).

(** [sleep()] *)
Definition sleep (w : world) : world :=
  let w := log Call_pixel_disable w in
  let w := log Call_ir_disable w in
  let w := log Call_button_ISR_on w in
  let w := log Call_power_sleep w in
  let w := log Call_button_ISR_off w in
  let w := log Call_ir_enable w in
  let w := log Call_pixel_enable w in
  set_loopstate_in (set_woke_flag 1 (loopstate_in w)) w.

(** [postponeSleep()] *)
Definition postponeSleep (w : world) : world :=
  Timer_set SLEEP_TIMEOUT_MS w.

(** [timer_1000us_callback_sei()] *)
Definition timer_1000us_callback_sei (upd : debounce) (w : world) : world :=
  let w := log Call_timer_1000us_callback_sei w in
  let w := incrementMillis1ms w in
  let '(activity, b) := upd (buttonstate w) in
  let w := set_buttonstate b w in
  if activity then postponeSleep w else w.

(** [grabAndClearButtonState(d)]: the three assignments into the
    destination, then the source's flags are cleared.  The ATOMIC_BLOCK is
    the fact that this is one step of the model: no tick happens inside. *)
Definition grabAndClearButtonState (d : buttonstate_t) (w : world) : buttonstate_t * world :=
  let d := mk_buttonstate (bitflags (buttonstate w)) (clickcount d) (down d) in
  let d := mk_buttonstate (bitflags d) (clickcount (buttonstate w)) (down d) in
  let d := mk_buttonstate (bitflags d) (clickcount d) (down (buttonstate w)) in
  let w := set_buttonstate
             (mk_buttonstate 0 (clickcount (buttonstate w)) (down (buttonstate w))) w in
  (d, w).

(** [timer_256us_callback_sei()], with its [static unsigned step_us]. *)
Definition timer_256us_callback_sei (upd : debounce) (w : world) : world :=
  let w := set_step_us (wrap16 (step_us w + 256)) w in
  if 1000 <=? step_us w then
    let w := timer_1000us_callback_sei upd w in
    set_step_us (wrap16 (step_us w - 1000)) w
  else w.

(** ** The environment *)

(** Modelled from the spec: the IR driver completes a frame on face [f].
    It does not overwrite a buffer still marked ready, and a frame has to
    fit the receive buffer. *)
Definition ir_receive (f : nat) (frame : list Z) (w : world) : world :=
  let face := ir w !!! f in
  if packet_ready face || (length (packet_buffer face) <? length frame)%nat then w
  else
    set_ir (<[f := mk_ir_face true (Z.of_nat (length frame))
                     (frame ++ drop (length frame) (packet_buffer face))]> (ir w)) w.

(** What can happen between power-up and power-down: a timer interrupt, a
    1 ms tick injected directly, one pass of the main loop, a frame
    arriving on a face. *)
Inductive event :=
| EvTimer256 (upd : debounce)
| EvTimer1000 (upd : debounce)
| EvLoop (loopEntry : user_loop)
| EvIrPacket (f : nat) (frame : list Z).

(** ** Observations on the call log *)

Definition is_power_sleep (c : call) : bool :=
  match c with Call_power_sleep => true | _ => false end.
Definition is_tick (c : call) : bool :=
  match c with Call_timer_1000us_callback_sei => true | _ => false end.

Definition is_mark_read (f : nat) (c : call) : bool :=
  match c with Call_irDataMarkPacketRead g => Nat.eqb g f | _ => false end.

(** How many times the Awake-to-Asleep transition was taken. *)
Definition sleeps (w : world) : Z :=
  Z.of_nat (length (List.filter is_power_sleep (calls w))).
(** How many times the millisecond callback ran. *)
Definition ticks (w : world) : Z :=
  Z.of_nat (length (List.filter is_tick (calls w))).
(** How many times a frame on face [f] was marked consumed. *)
Definition mark_reads (f : nat) (w : world) : Z :=
  Z.of_nat (length (List.filter (is_mark_read f) (calls w))).

(** What the pipeline can see and change of face [f]: the driver's state of
    the face, the face's descriptor in [loopstate_in], and the number of
    times the face's frame was marked consumed. *)
Definition face_view (f : nat) (w : world)
    : option ir_face * option ir_data_buffer_t * Z :=
  (ir w !! f, ir_data_buffers (loopstate_in w) !! f, mark_reads f w).

(** A frame in the spec's words: the first [packetLen] bytes of the
    receive buffer. *)
Definition frame_of (face : ir_face) : list Z :=
  take (Z.to_nat (wrap8 (packet_len face))) (packet_buffer face).

(** A valid user-data frame in the spec's words: at least two bytes, the
    checksum matches, the header byte is 0x01. *)
Definition valid_user_frame (frame : list Z) : bool :=
  (2 <=? Z.of_nat (length frame)) && checksum_ok frame && (frame !!! 0%nat =? 0x01).

Definition sel_loop_input (c : call) : option loopstate_in_t :=
  match c with Call_loopEntry i => Some i | _ => None end.

Definition sel_pixel_write (c : call) : option (nat * pixelColor_t) :=
  match c with
  | Call_pixel_bufferedSetPixel f col => Some (f, col)
  | _ => None
  end.

(** The input records the user callback was given, oldest first. *)
Definition loop_inputs (w : world) : list loopstate_in_t :=
  rev (omap sel_loop_input (calls w)).

(** In how many of those input records the woke flag was set. *)
Definition wake_observations (w : world) : Z :=
  Z.of_nat (length (List.filter (fun i => woke_flag i =? 1) (loop_inputs w))).

(** Sleeps taken, the woke flag of each input record in turn, and the
    number of records with the flag set. *)
Definition wake_summary (w : world) : Z * list Z * Z :=
  (sleeps w, map woke_flag (loop_inputs w), wake_observations w).

(** The faces written to the display buffer, oldest first. *)
Definition pixel_writes (cs : list call) : list (nat * pixelColor_t) :=
  rev (omap sel_pixel_write cs).

(** The calls made on the way from [w] to [w'], newest first. *)
Definition new_calls (w w' : world) : list call :=
  take (length (calls w') - length (calls w)) (calls w').

(** A tick without button activity: the debounce routine reports nothing
    that would postpone sleep. *)
Definition quiet (upd : debounce) : Prop := forall b, fst (upd b) = false.

Definition quiet_event (e : event) : Prop :=
  match e with
  | EvTimer256 upd | EvTimer1000 upd => quiet upd
  | _ => True
  end.

(** The calls [sleep()] makes, newest first. *)
Definition sleep_calls : list call :=
  [Call_pixel_enable; Call_ir_enable; Call_button_ISR_off; Call_power_sleep;
   Call_button_ISR_on; Call_ir_disable; Call_pixel_disable].

(** The faces [from .. from + n - 1] whose output colour carries the dirty
    bit, with that colour, in face order. *)
Definition dirty_faces (out : loopstate_out_t) (from n : nat) : list (nat * pixelColor_t) :=
  List.filter (fun p => reserved (snd p))
    (map (fun f => (f, colors out !!! f)) (seq from n)).

Section Core.

(** The face counts come from the hardware layer. *)
Variable IR_FACE_COUNT : nat.
Variable PIXEL_FACE_COUNT : nat.

(** The body of the face loop of [processPendingIRPackets()]. *)
Definition process_face (f : nat) (w : world) : world :=
  if irDataIsPacketReady w f then
    let packetLen := wrap8 (irDataPacketLen w f) in
    if packetLen <? 2 then
      irDataMarkPacketRead f w
    else
      let pdata := irDataPacketBuffer w f in
      let w := log (Call_crccheck f packetLen) w in
      if crccheck pdata packetLen then
        if deref pdata 0 =? 0x01 then
          let b := ir_data_buffers (loopstate_in w) !!! f in
          let b := mk_ir_data_buffer (data b) (packetLen - 1) (ready_flag b) in
          let b := mk_ir_data_buffer (data b) (len b) 1 in
          set_loopstate_in
            (set_ir_data_buffers (<[f := b]> (ir_data_buffers (loopstate_in w)))
               (loopstate_in w)) w
        else if deref pdata 0 =? 0x02 then
          irDataMarkPacketRead f w
        else
          irDataMarkPacketRead f w
      else
        irDataMarkPacketRead f w
  else w.

(** [processPendingIRPackets()] *)
Definition processPendingIRPackets (w : world) : world :=
  for_loop IR_FACE_COUNT 0 process_face w.

(** The first loop of [run()]: set the buffer pointers. *)
Definition set_buffer_pointer (f : nat) (w : world) : world :=
  let b := ir_data_buffers (loopstate_in w) !!! f in
  let b := mk_ir_data_buffer (ptr_add (PacketBuffer f 0) 1) (len b) (ready_flag b) in
  let b := mk_ir_data_buffer (data b) (len b) 0 in
  set_loopstate_in
    (set_ir_data_buffers (<[f := b]> (ir_data_buffers (loopstate_in w)))
       (loopstate_in w)) w.

(** [run()] up to the [while (1)]. *)
Definition run_init (w : world) : world :=
  let w := for_loop IR_FACE_COUNT 0 set_buffer_pointer w in
  let w := log Call_ir_enable w in
  let w := log Call_pixel_enable w in
  let w := log Call_button_enable_pu w in
  let w := log Call_setupEntry w in
  postponeSleep w.

(** The pixel loop of [run()]. *)
Definition forward_pixel (f : nat) (w : world) : world :=
  let color := colors (loopstate_out w) !!! f in
  if reserved color then pixel_bufferedSetPixel f color w else w.

(** One pass through the body of the [while (1)] of [run()]. *)
Definition run_loop (loopEntry : user_loop) (w : world) : world :=
  let w := updateMillisSnapshot w in
  let w := processPendingIRPackets w in
  let '(d, w) := grabAndClearButtonState (in_buttonstate (loopstate_in w)) w in
  let w := set_loopstate_in (set_in_buttonstate d (loopstate_in w)) w in
  let w := set_loopstate_in (set_in_millis (millis_snapshot w) (loopstate_in w)) w in
  let w := log (Call_loopEntry (loopstate_in w)) w in
  let w := set_loopstate_out (loopEntry (loopstate_in w) (ir w) (loopstate_out w)) w in
  let w := for_loop PIXEL_FACE_COUNT 0 forward_pixel w in
  let w := log Call_pixel_displayBufferedPixels w in
  if Timer_isExpired w then sleep w else w.

Definition step (e : event) (w : world) : world :=
  match e with
  | EvTimer256 upd => timer_256us_callback_sei upd w
  | EvTimer1000 upd => timer_1000us_callback_sei upd w
  | EvLoop loopEntry => run_loop loopEntry w
  | EvIrPacket f frame => ir_receive f frame w
  end.

Definition exec (es : list event) (w : world) : world :=
  fold_left (fun w e => step e w) es w.

(** The state at power-up: zeroed globals, [IR_FACE_COUNT] receive buffers of
    [bufsize] bytes, a dark display. *)
Definition power_up (bufsize : nat) : world :=
  mk_world
    (mk_loopstate_in (replicate IR_FACE_COUNT (mk_ir_data_buffer NULL 0 0))
       (mk_buttonstate 0 0 0) 0 0)
    (mk_loopstate_out (replicate PIXEL_FACE_COUNT (mk_pixelColor false 0)))
    0 (mk_buttonstate 0 0 0) 0 0 0
    (replicate IR_FACE_COUNT (mk_ir_face false 0 (replicate bufsize 0)))
    (replicate PIXEL_FACE_COUNT (mk_pixelColor false 0))
    [].

End Core.

(** ** Sample inputs *)

(** A debounce step that sees no activity and leaves the state alone. *)
Definition quiet_debounce : debounce := fun b => (false, b).

(** A debounce step that sees a press: sleep is to be postponed. *)
Definition press_debounce : debounce :=
  fun b => (true, mk_buttonstate 1 (clickcount b) 1).

(** A callback that does nothing. *)
Definition idle_loop : user_loop := fun _ _ out => out.

(** A callback that sets face 0 with the dirty bit and face 1 without. *)
Definition paint_loop : user_loop :=
  fun _ _ out =>
    mk_loopstate_out
      (<[1%nat := mk_pixelColor false 7]> (<[0%nat := mk_pixelColor true 5]> (colors out))).

(** Ten minutes of quiet ticks, a pass that goes to sleep, the press that
    wakes the tile, and two more passes. *)
Definition wake_schedule : list event :=
  repeat (EvTimer1000 quiet_debounce) (Z.to_nat 600000) ++
  [EvLoop idle_loop; EvTimer1000 press_debounce; EvLoop idle_loop; EvLoop idle_loop].

(** The user-data frame [0x01, 'H', 'I'] with its checksum. *)
Definition frame_HI : list Z := [0x01; 72; 73; 75].

(** The same frame with the last byte corrupted. *)
Definition frame_HI_bad : list Z := [0x01; 72; 73; 74].

(** A tile with six faces and eight-byte receive buffers, just started. *)
Definition tile_started : world := run_init 6 (power_up 6 6 8).

(** The same tile with [frame_HI] received on face 2. *)
Definition tile_with_HI : world := exec 6 6 [EvIrPacket 2 frame_HI] tile_started.

(** The same tile with the corrupted frame received on face 2. *)
Definition tile_with_bad_HI : world := exec 6 6 [EvIrPacket 2 frame_HI_bad] tile_started.

(** ** Vocabulary of the proofs *)

(** The bytes the loop folds over, read through [deref]. *)
Definition bytes_at (mem : list Z) (from n : nat) : list Z :=
  map (deref mem) (seq from n).

(** The pass for face [f], as it acts on what can be seen of face [f]. *)
Definition process_face_on_view
    (v : option ir_face * option ir_data_buffer_t * Z)
    : option ir_face * option ir_data_buffer_t * Z :=
  let '(oface, ob, k) := v in
  let face := default inhabitant oface in
  let consumed :=
    ((fun _ => mk_ir_face false (packet_len face) (packet_buffer face)) <$> oface,
     ob, k + 1) in
  if packet_ready face then
    let packetLen := wrap8 (packet_len face) in
    if packetLen <? 2 then consumed
    else if crccheck (packet_buffer face) packetLen then
      if deref (packet_buffer face) 0 =? 0x01 then
        (oface, (fun b => mk_ir_data_buffer (data b) (packetLen - 1) 1) <$> ob, k)
      else consumed
    else consumed
  else v.

(** The pipeline touches nothing of [loopstate_in] but the descriptors, and
    nothing of the rest of the world but the driver's faces and the log. *)
Definition same_outside_ir (w w' : world) : Prop :=
  woke_flag (loopstate_in w') = woke_flag (loopstate_in w) /\
  in_millis (loopstate_in w') = in_millis (loopstate_in w) /\
  in_buttonstate (loopstate_in w') = in_buttonstate (loopstate_in w) /\
  loopstate_out w' = loopstate_out w /\
  sleepTimer w' = sleepTimer w /\
  buttonstate w' = buttonstate w /\
  step_us w' = step_us w /\
  millis w' = millis w /\
  millis_snapshot w' = millis_snapshot w /\
  pixel_buffer w' = pixel_buffer w /\
  length (ir w') = length (ir w) /\
  length (ir_data_buffers (loopstate_in w')) = length (ir_data_buffers (loopstate_in w)).

(** The calls the pipeline makes: frames marked consumed and checksum
    checks, the latter on lengths from 2 to 255 only. *)
Definition is_ir_call (c : call) : Prop :=
  match c with
  | Call_irDataMarkPacketRead _ => True
  | Call_crccheck _ len => 2 <= len < 256
  | _ => False
  end.

(** [w'] has the log of [w] with calls satisfying [P] added. *)
Definition logs_only (P : call -> Prop) (w w' : world) : Prop :=
  exists new, calls w' = new ++ calls w /\ Forall P new.

(** Observations that the pipeline's and the pixel loop's calls do not
    count towards. *)
Definition blind_to_drivers (p : call -> bool) : Prop :=
  (forall f, p (Call_irDataMarkPacketRead f) = false) /\
  (forall f len, p (Call_crccheck f len) = false) /\
  (forall f c, p (Call_pixel_bufferedSetPixel f c) = false) /\
  p Call_pixel_displayBufferedPixels = false /\
  (forall i, p (Call_loopEntry i) = false).

(** A descriptor keeps its pointer, and a ready flag that is set stays set. *)
Definition descriptor_kept (o o' : option ir_data_buffer_t) : Prop :=
  match o, o' with
  | Some b, Some b' => data b' = data b /\ (ready_flag b = 1 -> ready_flag b' = 1)
  | None, None => True
  | _, _ => False
  end.

(** All checksum checks in the log were made on lengths from 2 to 255. *)
Definition crc_calls_ok (cs : list call) : Prop :=
  forall f len, In (Call_crccheck f len) cs -> 2 <= len < 256.

(** ** Vocabulary of the further properties *)

(** The eight rounds of [_crc8_ccitt_update] on the byte [inCrc ^ inData]. *)
Definition crc8_ccitt_rounds (x : Z) : Z := Nat.iter 8 crc8_ccitt_round x.

(** All [uint8_t] values. *)
Definition all_bytes : list Z := map Z.of_nat (seq 0 256).

(** [n] timer interrupts in a row. *)
Definition timer_256us_run (upds : list debounce) (w : world) : world :=
  fold_left (fun w upd => timer_256us_callback_sei upd w) upds w.

(** Whether the last switch in a log (newest first) left a device on. *)
Fixpoint last_switch (on off : call -> bool) (cs : list call) : bool :=
  match cs with
  | [] => false
  | c :: cs' => if on c then true else if off c then false else last_switch on off cs'
  end.

Definition is_ir_enable (c : call) : bool :=
  match c with Call_ir_enable => true | _ => false end.
Definition is_ir_disable (c : call) : bool :=
  match c with Call_ir_disable => true | _ => false end.
Definition is_pixel_enable (c : call) : bool :=
  match c with Call_pixel_enable => true | _ => false end.
Definition is_pixel_disable (c : call) : bool :=
  match c with Call_pixel_disable => true | _ => false end.

(** IR reception, and the pixels, are on after the calls [cs]. *)
Definition ir_enabled (cs : list call) : bool := last_switch is_ir_enable is_ir_disable cs.
Definition pixel_enabled (cs : list call) : bool :=
  last_switch is_pixel_enable is_pixel_disable cs.

Definition is_switch (c : call) : bool :=
  is_ir_enable c || is_ir_disable c || is_pixel_enable c || is_pixel_disable c.

(** The calls that need the devices: the user's setup and loop, the pixel
    driver's writes and flush, the IR driver's mark-read. *)
Definition uses_devices (c : call) : bool :=
  match c with
  | Call_setupEntry | Call_loopEntry _ | Call_pixel_bufferedSetPixel _ _
  | Call_pixel_displayBufferedPixels | Call_irDataMarkPacketRead _ => true
  | _ => false
  end.

(** Every call of the log that needs the devices was made with IR and
    pixels on. *)
Fixpoint always_on (cs : list call) : Prop :=
  match cs with
  | [] => True
  | c :: cs' =>
      (uses_devices c = true -> ir_enabled cs' = true /\ pixel_enabled cs' = true) /\
      always_on cs'
  end.


Definition devices_ok (cs : list call) : Prop :=
  ir_enabled cs = true /\ pixel_enabled cs = true /\ always_on cs.

(** Reduce the projections of a world built by the setters. *)
Ltac world_simpl :=
  cbn [loopstate_in loopstate_out sleepTimer buttonstate step_us millis
       millis_snapshot ir pixel_buffer calls set_loopstate_in set_loopstate_out
       set_sleepTimer set_buttonstate set_step_us set_millis set_millis_snapshot
       set_ir set_pixel_buffer set_calls log ir_data_buffers in_buttonstate
       in_millis woke_flag set_woke_flag set_in_millis set_in_buttonstate
       set_ir_data_buffers bitflags clickcount down updateMillisSnapshot].

Ltac world_simpl_in H :=
  cbn [loopstate_in loopstate_out sleepTimer buttonstate step_us millis
       millis_snapshot ir pixel_buffer calls set_loopstate_in set_loopstate_out
       set_sleepTimer set_buttonstate set_step_us set_millis set_millis_snapshot
       set_ir set_pixel_buffer set_calls log ir_data_buffers in_buttonstate
       in_millis woke_flag set_woke_flag set_in_millis set_in_buttonstate
       set_ir_data_buffers bitflags clickcount down updateMillisSnapshot] in H.

(** * Properties *)

Section Properties.

(** The face counts come from the hardware layer; everything below holds
    for any. *)
Variable IR_FACE_COUNT : nat.
Variable PIXEL_FACE_COUNT : nat.

Local Abbreviation run_loop_c := (run_loop IR_FACE_COUNT PIXEL_FACE_COUNT).
Local Abbreviation step_c := (step IR_FACE_COUNT PIXEL_FACE_COUNT).
Local Abbreviation exec_c := (exec IR_FACE_COUNT PIXEL_FACE_COUNT).
Local Abbreviation pipeline_c := (processPendingIRPackets IR_FACE_COUNT).
Local Abbreviation power_up_c := (power_up IR_FACE_COUNT PIXEL_FACE_COUNT).
Local Abbreviation run_init_c := (run_init IR_FACE_COUNT).

(** ** The checksum loop *)

Lemma wrap8_small z : 0 <= z < 256 -> wrap8 z = z.
Proof. intros H. unfold wrap8. apply Z.mod_small. lia. Qed.

Lemma bytes_at_take mem n :
  (n <= length mem)%nat -> bytes_at mem 0 n = take n mem.
Proof.
  intros Hn. unfold bytes_at. apply list_eq. intros i.
  rewrite list_lookup_fmap.
  destruct (decide (i < n)%nat) as [Hi|Hi].
  - rewrite lookup_seq_lt by lia. rewrite lookup_take_lt by lia. simpl.
    unfold deref. destruct (lookup_lt_is_Some_2 mem i ltac:(lia)) as [x Hx].
    rewrite Hx. f_equal. apply list_lookup_total_correct. exact Hx.
  - rewrite lookup_seq_ge by lia. rewrite lookup_take_ge by lia. reflexivity.
Qed.

(** The loop runs [len - 1] times: it folds the update over the bytes at
    [data .. data + len - 2], leaves the pointer at [data + len - 1] and has
    dereferenced exactly those offsets. *)
Lemma crccheck_loop_spec (k : nat) :
  forall fuel mem c len data rd,
    len = Z.of_nat k + 1 -> len < 256 -> (k < fuel)%nat ->
    crccheck_loop fuel mem c len data rd =
    Some (fold_left _crc8_ccitt_update (bytes_at mem data k) c,
          (data + k)%nat, rev (seq data k) ++ rd).
Proof.
  induction k as [|k IH]; intros fuel mem c len data rd Hlen Hlt Hfuel.
  - destruct fuel as [|fuel]; [lia|]. subst len. simpl.
    rewrite Nat.add_0_r. reflexivity.
  - destruct fuel as [|fuel]; [lia|].
    cbn [crccheck_loop].
    assert (Hw : wrap8 (len - 1) = Z.of_nat k + 1) by (rewrite wrap8_small; lia).
    rewrite Hw.
    destruct (Z.eqb_spec (Z.of_nat k + 1) 0) as [E|_]; [lia|].
    rewrite (IH fuel mem _ (Z.of_nat k + 1) (S data) (data :: rd)) by lia.
    unfold bytes_at. cbn [seq map fold_left rev].
    rewrite <- app_assoc. cbn [app].
    replace (S data + k)%nat with (data + S k)%nat by lia. reflexivity.
Qed.

Lemma crccheck_loop_S fuel mem c len data rd :
  crccheck_loop (S fuel) mem c len data rd =
  if wrap8 (len - 1) =? 0 then Some (c, data, rd)
  else crccheck_loop fuel mem (_crc8_ccitt_update c (deref mem data))
         (wrap8 (len - 1)) (S data) (data :: rd).
Proof. reflexivity. Qed.

(** 256 units of fuel are enough for every [uint8_t] length, 0 included
    (where the counter wraps to 255). *)
Lemma crccheck_loop_fuel mem len :
  is_Some (crccheck_traced mem len).
Proof.
  unfold crccheck_traced.
  assert (Hr : 0 <= wrap8 len < 256) by (unfold wrap8; apply Z.mod_pos_bound; lia).
  destruct (Z.eq_dec (wrap8 len) 0) as [E|E].
  - rewrite E. change 256%nat with (S 255). rewrite crccheck_loop_S.
    change (wrap8 (0 - 1)) with 255. change (255 =? 0) with false. cbv iota.
    rewrite (crccheck_loop_spec 254) by lia. eauto.
  - rewrite (crccheck_loop_spec (Z.to_nat (wrap8 len - 1))) by lia. eauto.
Qed.

Lemma crccheck_traced_spec mem len :
  1 <= len < 256 ->
  let n := Z.to_nat (len - 1) in
  crccheck_traced mem len =
  Some (deref mem n =? crc8_ccitt (bytes_at mem 0 n), seq 0 n ++ [n]).
Proof.
  intros Hlen n. unfold crccheck_traced.
  rewrite (wrap8_small len) by lia.
  rewrite (crccheck_loop_spec n) by (subst n; lia).
  cbn [Nat.add]. rewrite app_nil_r.
  cbn [rev]. rewrite rev_involutive. reflexivity.
Qed.

Lemma checksum_ok_take mem len :
  1 <= len -> (Z.to_nat len <= length mem)%nat ->
  let n := Z.to_nat (len - 1) in
  checksum_ok (take (Z.to_nat len) mem) =
  (deref mem n =? crc8_ccitt (bytes_at mem 0 n)).
Proof.
  intros Hlen Hmem n. unfold checksum_ok.
  rewrite length_take, Nat.min_l by lia.
  replace (Z.to_nat len - 1)%nat with n by (subst n; lia).
  rewrite lookup_take_lt by (subst n; lia).
  rewrite take_take, Nat.min_l by (subst n; lia).
  rewrite bytes_at_take by (subst n; lia).
  destruct (lookup_lt_is_Some_2 mem n ltac:(subst n; lia)) as [x Hx].
  rewrite Hx. unfold deref. rewrite (list_lookup_total_correct _ _ _ Hx).
  reflexivity.
Qed.

(** On a frame that lies in the buffer, [crccheck] decides exactly the
    spec's checksum condition. *)
Lemma crccheck_checksum_ok mem len :
  1 <= len < 256 -> (Z.to_nat len <= length mem)%nat ->
  crccheck mem len = checksum_ok (take (Z.to_nat len) mem).
Proof.
  intros Hlen Hmem. unfold crccheck.
  rewrite crccheck_traced_spec by lia.
  rewrite checksum_ok_take by lia. reflexivity.
Qed.

(** ** The packet pipeline, face by face *)

Lemma for_loop_inv {St : Type} (P : St -> Prop) (body : nat -> St -> St) :
  (forall f s, P s -> P (body f s)) ->
  forall n from s, P s -> P (for_loop n from body s).
Proof.
  intros Hbody. induction n as [|n IH]; intros from s Hs; cbn [for_loop]; auto.
Qed.

(** A loop whose passes leave an observation alone except at their own
    index, and act on it there as a function of the observation only,
    changes the observation at [f] as the single pass [body f] does. *)
Lemma for_loop_local {St V : Type} (view : nat -> St -> V) (body : nat -> St -> St) :
  (forall f g s, f <> g -> view f (body g s) = view f s) ->
  (forall f s1 s2, view f s1 = view f s2 -> view f (body f s1) = view f (body f s2)) ->
  forall n from s f,
    view f (for_loop n from body s) =
    if decide (from <= f < from + n)%nat then view f (body f s) else view f s.
Proof.
  intros Hother Hcongr. induction n as [|n IH]; intros from s f; cbn [for_loop].
  - destruct (decide _) as [H|H]; [lia|reflexivity].
  - rewrite IH.
    destruct (decide (S from <= f < S from + n)%nat) as [H1|H1];
      destruct (decide (from <= f < from + S n)%nat) as [H2|H2]; try lia.
    + apply Hcongr, Hother. lia.
    + assert (f = from) by lia. subst f. reflexivity.
    + apply Hother. lia.
Qed.

Lemma lookup_insert_same {A : Type} (l : list A) (f : nat) (x : A) :
  <[f := x]> l !! f = (fun _ => x) <$> l !! f.
Proof. rewrite list_insert_alter. apply list_lookup_alter_eq. Qed.

Lemma mark_reads_log f c w :
  mark_reads f (log c w) = mark_reads f w + (if is_mark_read f c then 1 else 0).
Proof.
  unfold mark_reads, log. cbn. destruct (is_mark_read f c); cbn [length]; lia.
Qed.

Lemma face_view_mark_other f g w :
  f <> g -> face_view f (irDataMarkPacketRead g w) = face_view f w.
Proof.
  intros Hfg. unfold face_view, irDataMarkPacketRead.
  rewrite mark_reads_log. cbn.
  rewrite list_lookup_insert_ne by congruence.
  destruct (Nat.eqb_spec g f); [congruence|].
  rewrite Z.add_0_r. reflexivity.
Qed.

Lemma process_face_other f g w :
  f <> g -> face_view f (process_face g w) = face_view f w.
Proof.
  intros Hfg. unfold process_face.
  repeat match goal with
         | |- context [if ?b then _ else _] => destruct b
         end;
    try (rewrite face_view_mark_other by assumption);
    try reflexivity.
  unfold face_view, mark_reads. cbn.
  rewrite list_lookup_insert_ne by congruence. reflexivity.
Qed.

Lemma face_view_mark_same f w :
  face_view f (irDataMarkPacketRead f w) =
  ((fun _ => mk_ir_face false (packet_len (ir w !!! f)) (packet_buffer (ir w !!! f)))
     <$> ir w !! f,
   ir_data_buffers (loopstate_in w) !! f, mark_reads f w + 1).
Proof.
  unfold face_view, irDataMarkPacketRead. rewrite mark_reads_log. cbn.
  rewrite lookup_insert_same, Nat.eqb_refl. reflexivity.
Qed.

Lemma process_face_same f w :
  face_view f (process_face f w) = process_face_on_view (face_view f w).
Proof.
  unfold process_face, process_face_on_view, irDataIsPacketReady,
    irDataPacketLen, irDataPacketBuffer.
  cbn [face_view]. unfold face_view at 2.
  rewrite !list_lookup_total_alt.
  destruct (packet_ready _); [|reflexivity].
  destruct (_ <? 2).
  { rewrite face_view_mark_same, !list_lookup_total_alt. reflexivity. }
  cbn [ir log set_calls].
  destruct (crccheck _ _).
  2:{ rewrite face_view_mark_same, mark_reads_log, !list_lookup_total_alt.
      cbn. rewrite Z.add_0_r. reflexivity. }
  destruct (deref _ 0 =? 1).
  - unfold face_view, mark_reads. cbn. rewrite lookup_insert_same.
    destruct (ir_data_buffers (loopstate_in w) !! f); reflexivity.
  - assert (E : face_view f (irDataMarkPacketRead f (log (Call_crccheck f (wrap8 (packet_len (default inhabitant (ir w !! f))))) w))
               = ((fun _ => mk_ir_face false (packet_len (default inhabitant (ir w !! f)))
                              (packet_buffer (default inhabitant (ir w !! f)))) <$> ir w !! f,
                  ir_data_buffers (loopstate_in w) !! f, mark_reads f w + 1)).
    { rewrite face_view_mark_same, mark_reads_log, !list_lookup_total_alt.
      cbn. rewrite Z.add_0_r. reflexivity. }
    destruct (deref _ 0 =? 2); exact E.
Qed.

Lemma processPendingIRPackets_view f w :
  (f < IR_FACE_COUNT)%nat ->
  face_view f (processPendingIRPackets IR_FACE_COUNT w) =
  process_face_on_view (face_view f w).
Proof.
  intros Hf. unfold processPendingIRPackets.
  rewrite (for_loop_local face_view process_face).
  - rewrite decide_True by lia. apply process_face_same.
  - intros f' g s Hne. apply process_face_other. exact Hne.
  - intros f' s1 s2 E. rewrite !process_face_same, E. reflexivity.
Qed.

Lemma same_outside_ir_refl w : same_outside_ir w w.
Proof. unfold same_outside_ir. tauto. Qed.

Lemma same_outside_ir_trans w1 w2 w3 :
  same_outside_ir w1 w2 -> same_outside_ir w2 w3 -> same_outside_ir w1 w3.
Proof. unfold same_outside_ir. intuition congruence. Qed.

Lemma process_face_outside f w : same_outside_ir w (process_face f w).
Proof.
  unfold process_face, irDataMarkPacketRead.
  repeat match goal with
         | |- context [if ?b then _ else _] => destruct b
         end;
    unfold same_outside_ir; cbn; rewrite ?length_insert; tauto.
Qed.

Lemma processPendingIRPackets_outside w :
  same_outside_ir w (processPendingIRPackets IR_FACE_COUNT w).
Proof.
  unfold processPendingIRPackets.
  apply (for_loop_inv (same_outside_ir w)); [|apply same_outside_ir_refl].
  intros f s Hs. eapply same_outside_ir_trans; [exact Hs|apply process_face_outside].
Qed.

(** On a frame that lies in the receive buffer, the three tests of the
    pipeline (length, checksum, header) are the spec's validity. *)
Lemma valid_user_frame_tests face :
  let packetLen := wrap8 (packet_len face) in
  (Z.to_nat packetLen <= length (packet_buffer face))%nat ->
  valid_user_frame (frame_of face) =
  negb (packetLen <? 2) && crccheck (packet_buffer face) packetLen
  && (deref (packet_buffer face) 0 =? 0x01).
Proof.
  intros n Hfit. unfold valid_user_frame, frame_of. fold n.
  assert (Hn : 0 <= n < 256) by (apply Z.mod_pos_bound; lia).
  rewrite length_take, Nat.min_l by lia. rewrite Z2Nat.id by lia.
  destruct (Z.ltb_spec n 2) as [Hlt|Hge].
  - rewrite (proj2 (Z.leb_gt 2 n)) by lia. reflexivity.
  - rewrite (proj2 (Z.leb_le 2 n)) by lia. cbn [negb andb].
    rewrite crccheck_checksum_ok by lia.
    unfold deref. rewrite lookup_total_take_lt by lia. reflexivity.
Qed.

(** ** What each part of the loop adds to the call log *)

Lemma logs_only_refl P w : logs_only P w w.
Proof. exists []. split; [reflexivity|constructor]. Qed.

Lemma logs_only_trans P w1 w2 w3 :
  logs_only P w1 w2 -> logs_only P w2 w3 -> logs_only P w1 w3.
Proof.
  intros (n1 & E1 & F1) (n2 & E2 & F2). exists (n2 ++ n1). split.
  - rewrite E2, E1, app_assoc. reflexivity.
  - apply Forall_app. split; assumption.
Qed.

Lemma process_face_logs f w : logs_only is_ir_call w (process_face f w).
Proof.
  unfold process_face, irDataMarkPacketRead.
  destruct (irDataIsPacketReady w f); [|apply logs_only_refl].
  assert (Hr : 0 <= wrap8 (irDataPacketLen w f) < 256) by (apply Z.mod_pos_bound; lia).
  destruct (Z.ltb_spec (wrap8 (irDataPacketLen w f)) 2) as [Hlt|Hge].
  { eexists [_]. split; [reflexivity|]. repeat constructor. }
  repeat match goal with
         | |- context [if ?b then _ else _] => destruct b
         end.
  all: first [ eexists [_; _]; split; [reflexivity|]
             | eexists [_]; split; [reflexivity|] ].
  all: repeat constructor; cbn; lia.
Qed.

Lemma processPendingIRPackets_logs w :
  logs_only is_ir_call w (processPendingIRPackets IR_FACE_COUNT w).
Proof.
  unfold processPendingIRPackets.
  apply (for_loop_inv (logs_only is_ir_call w)); [|apply logs_only_refl].
  intros f s Hs. eapply logs_only_trans; [exact Hs|apply process_face_logs].
Qed.

(** The pixel loop: the calls it makes are exactly the writes of the dirty
    faces, and it changes nothing but the display buffer and the log. *)
Lemma forward_pixels_calls n : forall from w,
  let w' := for_loop n from forward_pixel w in
  calls w' =
  rev (map (fun p => Call_pixel_bufferedSetPixel (fst p) (snd p))
         (dirty_faces (loopstate_out w) from n)) ++ calls w /\
  loopstate_out w' = loopstate_out w /\
  loopstate_in w' = loopstate_in w /\
  sleepTimer w' = sleepTimer w /\
  buttonstate w' = buttonstate w /\
  step_us w' = step_us w /\
  millis w' = millis w /\
  millis_snapshot w' = millis_snapshot w /\
  ir w' = ir w.
Proof.
  induction n as [|n IH]; intros from w; cbn [for_loop].
  - cbn. tauto.
  - specialize (IH (S from) (forward_pixel from w)). cbv zeta in IH |- *.
    destruct IH as (Hc & Ho & Hi & Ht & Hb & Hs & Hm & Hms & Hir).
    rewrite Hc, Ho, Hi, Ht, Hb, Hs, Hm, Hms, Hir. clear.
    unfold dirty_faces, forward_pixel, pixel_bufferedSetPixel.
    cbn [seq map List.filter snd].
    destruct (reserved (colors (loopstate_out w) !!! from)); cbn.
    + rewrite <- app_assoc. cbn. tauto.
    + tauto.
Qed.

(** The pixel loop writes the display buffer at the dirty faces only. *)
Lemma forward_pixels_buffer w f :
  pixel_buffer (for_loop PIXEL_FACE_COUNT 0 forward_pixel w) !! f =
  if (f <? PIXEL_FACE_COUNT)%nat && reserved (colors (loopstate_out w) !!! f)
  then (fun _ => colors (loopstate_out w) !!! f) <$> pixel_buffer w !! f
  else pixel_buffer w !! f.
Proof.
  pose (view := fun (f : nat) (w : world) => (pixel_buffer w !! f, loopstate_out w)).
  assert (H : view f (for_loop PIXEL_FACE_COUNT 0 forward_pixel w) =
              if decide (0 <= f < 0 + PIXEL_FACE_COUNT)%nat
              then view f (forward_pixel f w) else view f w).
  { apply (for_loop_local view forward_pixel).
    - intros f' g s Hne. unfold view, forward_pixel, pixel_bufferedSetPixel.
      destruct (reserved _); cbn; [|reflexivity].
      rewrite list_lookup_insert_ne by congruence. reflexivity.
    - intros f' s1 s2 E. unfold view in E. injection E as E1 E2.
      unfold view, forward_pixel, pixel_bufferedSetPixel. rewrite E2.
      destruct (reserved _); cbn; rewrite ?lookup_insert_same; congruence. }
  unfold view in H.
  destruct (Nat.ltb_spec f PIXEL_FACE_COUNT) as [Hf|Hf]; cbn [andb].
  - rewrite decide_True in H by lia. injection H as H _. rewrite H.
    unfold forward_pixel, pixel_bufferedSetPixel.
    destruct (reserved _); cbn; rewrite ?lookup_insert_same; reflexivity.
  - rewrite decide_False in H by lia. injection H as H _. rewrite H. reflexivity.
Qed.

(** The end of a pass, from the pixel loop on. *)
Lemma run_loop_tail wp :
  let wq := log Call_pixel_displayBufferedPixels
              (for_loop PIXEL_FACE_COUNT 0 forward_pixel wp) in
  let w' := if Timer_isExpired wq then sleep wq else wq in
  let expired := sleepTimer wp <=? millis_snapshot wp in
  calls w' =
    (if expired then sleep_calls else []) ++
    Call_pixel_displayBufferedPixels ::
    rev (map (fun p => Call_pixel_bufferedSetPixel (fst p) (snd p))
           (dirty_faces (loopstate_out wp) 0 PIXEL_FACE_COUNT)) ++ calls wp /\
  loopstate_out w' = loopstate_out wp /\
  loopstate_in w' =
    (if expired then set_woke_flag 1 (loopstate_in wp) else loopstate_in wp) /\
  sleepTimer w' = sleepTimer wp /\
  millis w' = millis wp /\
  step_us w' = step_us wp /\
  ir w' = ir wp /\
  buttonstate w' = buttonstate wp /\
  pixel_buffer w' = pixel_buffer (for_loop PIXEL_FACE_COUNT 0 forward_pixel wp).
Proof.
  intros wq w' expired.
  destruct (forward_pixels_calls PIXEL_FACE_COUNT 0 wp)
    as (Hc & Ho & Hi & Ht & Hb & Hs & Hm & Hms & Hir).
  assert (E : Timer_isExpired wq = expired).
  { unfold Timer_isExpired, wq, expired. world_simpl. rewrite Ht, Hms. reflexivity. }
  subst w'. rewrite E. subst wq. destruct expired; unfold sleep; world_simpl;
    rewrite Hc, Ho, Hi, Ht, Hb, Hs, Hm, Hir; repeat split; reflexivity.
Qed.

(** One pass of the main loop, spelled out: the input record handed to the
    callback, the calls made, and the globals afterwards. *)
Lemma run_loop_spec loopEntry w :
  let w0 := processPendingIRPackets IR_FACE_COUNT (updateMillisSnapshot w) in
  let i := mk_loopstate_in (ir_data_buffers (loopstate_in w0))
             (mk_buttonstate (bitflags (buttonstate w)) (clickcount (buttonstate w))
                (down (buttonstate w)))
             (millis w) (woke_flag (loopstate_in w)) in
  let out := loopEntry i (ir w0) (loopstate_out w) in
  let w' := run_loop IR_FACE_COUNT PIXEL_FACE_COUNT loopEntry w in
  calls w' =
    (if sleepTimer w <=? millis w then sleep_calls else []) ++
    Call_pixel_displayBufferedPixels ::
    rev (map (fun p => Call_pixel_bufferedSetPixel (fst p) (snd p))
           (dirty_faces out 0 PIXEL_FACE_COUNT)) ++
    Call_loopEntry i :: calls w0 /\
  loopstate_out w' = out /\
  loopstate_in w' = (if sleepTimer w <=? millis w then set_woke_flag 1 i else i) /\
  sleepTimer w' = sleepTimer w /\
  millis w' = millis w /\
  step_us w' = step_us w /\
  ir w' = ir w0 /\
  buttonstate w' =
    mk_buttonstate 0 (clickcount (buttonstate w)) (down (buttonstate w)) /\
  forall f, pixel_buffer w' !! f =
    if (f <? PIXEL_FACE_COUNT)%nat && reserved (colors out !!! f)
    then (fun _ => colors out !!! f) <$> pixel_buffer w !! f
    else pixel_buffer w !! f.
Proof.
  intros w0 i out w'.
  destruct (processPendingIRPackets_outside (updateMillisSnapshot w))
    as (Hwk & _ & _ & Hout & Hst & Hbs & Hstep & Hm & Hms & Hpx & _ & _).
  fold w0 in Hwk, Hout, Hst, Hbs, Hstep, Hm, Hms, Hpx.
  world_simpl_in Hwk. world_simpl_in Hout. world_simpl_in Hst. world_simpl_in Hbs.
  world_simpl_in Hstep. world_simpl_in Hm. world_simpl_in Hms. world_simpl_in Hpx.
  subst w'. unfold run_loop, grabAndClearButtonState. fold w0.
  match goal with
  | |- context [for_loop PIXEL_FACE_COUNT 0 forward_pixel ?x] =>
      pose proof (run_loop_tail x) as Ht; pose proof (forward_pixels_buffer x) as Hbuf
  end.
  cbv zeta in Ht. destruct Ht as (Hc & Ho & Hi & Ht & Hm' & Hs & Hir & Hb & Hp).
  rewrite Hc, Ho, Hi, Ht, Hm', Hs, Hir, Hb. setoid_rewrite Hp. setoid_rewrite Hbuf.
  clear Hc Ho Hi Ht Hm' Hs Hir Hb Hp Hbuf. world_simpl.
  unfold set_in_millis, set_in_buttonstate. world_simpl.
  rewrite Hwk, Hout, Hst, Hbs, Hstep, Hm, Hms, Hpx. fold i. fold out.
  repeat split.
Qed.

(** ** The clock *)

Lemma wrap16_small z : 0 <= z < 65536 -> wrap16 z = z.
Proof. intros H. unfold wrap16. apply Z.mod_small. lia. Qed.

Lemma timer_1000us_spec upd w :
  let w' := timer_1000us_callback_sei upd w in
  calls w' = Call_timer_1000us_callback_sei :: calls w /\
  step_us w' = step_us w /\
  millis w' = wrap32 (millis w + 1) /\
  sleepTimer w' =
    (if fst (upd (buttonstate w))
     then wrap32 (wrap32 (millis w + 1) + SLEEP_TIMEOUT_MS) else sleepTimer w) /\
  loopstate_in w' = loopstate_in w /\
  loopstate_out w' = loopstate_out w /\
  ir w' = ir w /\
  pixel_buffer w' = pixel_buffer w.
Proof.
  unfold timer_1000us_callback_sei, incrementMillis1ms. world_simpl.
  destruct (upd (buttonstate w)) as [[|] b]; cbn [fst];
    unfold postponeSleep, Timer_set; world_simpl; repeat split.
Qed.

(** One timer interrupt: the accumulator stays below one millisecond's
    worth and, with the ticks taken out of it, has grown by exactly 256. *)
Lemma timer_256us_spec upd w :
  0 <= step_us w < 1000 ->
  let w' := timer_256us_callback_sei upd w in
  0 <= step_us w' < 1000 /\
  1000 * (ticks w' - ticks w) + step_us w' = step_us w + 256.
Proof.
  intros Hs. unfold timer_256us_callback_sei. world_simpl.
  rewrite wrap16_small by lia.
  destruct (Z.leb_spec 1000 (step_us w + 256)) as [Hge|Hlt].
  - match goal with
    | |- context [timer_1000us_callback_sei upd ?x] =>
        destruct (timer_1000us_spec upd x) as (Hc & Hst & _)
    end.
    world_simpl_in Hc. world_simpl_in Hst. world_simpl. rewrite Hst.
    rewrite wrap16_small by lia.
    unfold ticks at 1. world_simpl. rewrite Hc. cbn [List.filter is_tick length].
    unfold ticks. lia.
  - world_simpl. unfold ticks. world_simpl. lia.
Qed.

Lemma timer_256us_run_spec (upds : list debounce) : forall w,
  0 <= step_us w < 1000 ->
  let w' := fold_left (fun w upd => timer_256us_callback_sei upd w) upds w in
  0 <= step_us w' < 1000 /\
  1000 * (ticks w' - ticks w) + step_us w' = step_us w + 256 * Z.of_nat (length upds).
Proof.
  induction upds as [|upd upds IH]; intros w Hs; cbn [fold_left length].
  - lia.
  - destruct (timer_256us_spec upd w Hs) as (Hs1 & E1).
    destruct (IH _ Hs1) as (Hs2 & E2). cbv zeta in *. lia.
Qed.

(** ** Runs of the whole system *)

Lemma filter_none {A : Type} (p : A -> bool) (l : list A) :
  Forall (fun x => p x = false) l -> List.filter p l = [].
Proof.
  induction 1 as [|x l Hx _ IH]; cbn [List.filter]; [reflexivity|].
  rewrite Hx. exact IH.
Qed.

Lemma omap_none {A B : Type} (sel : A -> option B) (l : list A) :
  Forall (fun x => sel x = None) l -> omap sel l = [].
Proof.
  induction 1 as [|x l Hx _ IH]; cbn [omap]; [reflexivity|].
  unfold omap in IH |- *. cbn. rewrite Hx. exact IH.
Qed.

Lemma blind_is_power_sleep : blind_to_drivers is_power_sleep.
Proof. repeat split. Qed.

Lemma blind_is_tick : blind_to_drivers is_tick.
Proof. repeat split. Qed.

Lemma exec_app es1 es2 w : exec_c (es1 ++ es2) w = exec_c es2 (exec_c es1 w).
Proof. unfold exec. apply fold_left_app. Qed.

(** The log after one pass: what [sleep] adds if the timer has expired, the
    display flush, the pixel writes, the callback, the pipeline's calls. *)
Lemma run_loop_calls loopEntry w :
  exists new i,
    Forall is_ir_call new /\
    woke_flag i = woke_flag (loopstate_in w) /\
    calls (run_loop_c loopEntry w) =
      (if sleepTimer w <=? millis w then sleep_calls else []) ++
      Call_pixel_displayBufferedPixels ::
      rev (map (fun p => Call_pixel_bufferedSetPixel (fst p) (snd p))
             (dirty_faces (loopstate_out (run_loop_c loopEntry w)) 0 PIXEL_FACE_COUNT)) ++
      Call_loopEntry i :: new ++ calls w.
Proof.
  destruct (run_loop_spec loopEntry w)
    as (Hc & Ho & _).
  destruct (processPendingIRPackets_logs (updateMillisSnapshot w))
    as (new & Hn & Hf).
  cbv zeta in Hc, Ho. rewrite Hn in Hc. world_simpl_in Hc.
  eexists new, _. split; [exact Hf|]. split; [|rewrite Ho; exact Hc].
  reflexivity.
Qed.

Lemma run_loop_filter (p : call -> bool) loopEntry w :
  blind_to_drivers p ->
  List.filter p (calls (run_loop_c loopEntry w)) =
  (if sleepTimer w <=? millis w then List.filter p sleep_calls else []) ++
  List.filter p (calls w).
Proof.
  intros (Hmr & Hcrc & Hpx & Hd & Hle).
  destruct (run_loop_calls loopEntry w) as (new & i & Hf & _ & Hc).
  rewrite Hc. rewrite filter_app. cbn [List.filter]. rewrite Hd.
  rewrite filter_app. cbn [List.filter]. rewrite Hle. rewrite filter_app.
  rewrite (filter_none p (rev _)).
  2:{ apply Forall_forall. intros c Hin. apply in_rev, in_map_iff in Hin.
      destruct Hin as (q & <- & _). apply Hpx. }
  rewrite (filter_none p new).
  2:{ eapply Forall_impl; [|exact Hf]. intros c Hc'.
      destruct c; cbn in Hc'; try contradiction; auto. }
  cbn [app]. destruct (sleepTimer w <=? millis w); reflexivity.
Qed.

Lemma run_loop_inputs loopEntry w :
  exists i, woke_flag i = woke_flag (loopstate_in w) /\
            loop_inputs (run_loop_c loopEntry w) = loop_inputs w ++ [i].
Proof.
  destruct (run_loop_calls loopEntry w) as (new & i & Hf & Hw & Hc).
  exists i. split; [exact Hw|]. unfold loop_inputs. rewrite Hc.
 
  rewrite omap_app, (omap_none sel_loop_input (if _ : bool then _ else _)).
  2:{ destruct (_ <=? _); repeat constructor. }
  cbn [app]. change (Call_pixel_displayBufferedPixels :: ?l) with ([Call_pixel_displayBufferedPixels] ++ l).
  rewrite omap_app, (omap_none sel_loop_input [_]) by (repeat constructor).
  cbn [app]. rewrite omap_app, (omap_none sel_loop_input (rev _)).
  2:{ apply Forall_forall. intros c Hin. apply in_rev, in_map_iff in Hin.
      destruct Hin as (q & <- & _). reflexivity. }
  cbn [app]. change (Call_loopEntry i :: ?l) with ([Call_loopEntry i] ++ l).
  rewrite omap_app, omap_app, (omap_none sel_loop_input new).
  2:{ eapply Forall_impl; [|exact Hf]. intros c Hc'.
      destruct c; cbn in Hc'; try contradiction; reflexivity. }
  cbn [app]. rewrite rev_app_distr. reflexivity.
Qed.

(** A timer event leaves the loop's records and the drivers alone; it
    either does nothing to clock and log, or it is one millisecond tick. *)
Lemma timer_step_spec e upd w :
  e = EvTimer256 upd \/ e = EvTimer1000 upd ->
  let w' := step_c e w in
  loopstate_in w' = loopstate_in w /\
  loopstate_out w' = loopstate_out w /\
  ir w' = ir w /\
  pixel_buffer w' = pixel_buffer w /\
  ((calls w' = calls w /\ millis w' = millis w /\ sleepTimer w' = sleepTimer w) \/
   (calls w' = Call_timer_1000us_callback_sei :: calls w /\
    millis w' = wrap32 (millis w + 1) /\
    (quiet upd -> sleepTimer w' = sleepTimer w))).
Proof.
  intros [-> | ->]; cbn [step].
  - unfold timer_256us_callback_sei. world_simpl.
    destruct (1000 <=? wrap16 (step_us w + 256)).
    + match goal with
      | |- context [timer_1000us_callback_sei upd ?x] =>
          destruct (timer_1000us_spec upd x) as (Hc & _ & Hm & Ht & Hi & Ho & Hir & Hp)
      end.
      world_simpl_in Hc. world_simpl_in Hm. world_simpl_in Ht. world_simpl_in Hi.
      world_simpl_in Ho. world_simpl_in Hir. world_simpl_in Hp. world_simpl.
      rewrite Hc, Hm, Ht, Hi, Ho, Hir, Hp. repeat split. right. repeat split.
      intros Hq. rewrite Hq. reflexivity.
    + world_simpl. repeat split. left. repeat split.
  - destruct (timer_1000us_spec upd w) as (Hc & _ & Hm & Ht & Hi & Ho & Hir & Hp).
    cbv zeta. rewrite Hc, Hm, Ht, Hi, Ho, Hir, Hp. repeat split. right. repeat split.
    intros Hq. rewrite Hq. reflexivity.
Qed.

Lemma ir_receive_spec f frame w :
  let w' := ir_receive f frame w in
  loopstate_in w' = loopstate_in w /\ loopstate_out w' = loopstate_out w /\
  calls w' = calls w /\ millis w' = millis w /\ sleepTimer w' = sleepTimer w /\
  pixel_buffer w' = pixel_buffer w.
Proof.
  unfold ir_receive. destruct (_ || _); world_simpl; repeat split.
Qed.

Lemma counts_same_calls w w' :
  calls w' = calls w -> ticks w' = ticks w /\ sleeps w' = sleeps w.
Proof. intros E. unfold ticks, sleeps. rewrite E. split; reflexivity. Qed.

Lemma counts_tick w w' :
  calls w' = Call_timer_1000us_callback_sei :: calls w ->
  ticks w' = ticks w + 1 /\ sleeps w' = sleeps w.
Proof.
  intros E. unfold ticks, sleeps. rewrite E.
  cbn [List.filter is_tick is_power_sleep length]. split; lia.
Qed.

Lemma wrap32_succ z : wrap32 (wrap32 z + 1) = wrap32 (z + 1).
Proof. unfold wrap32. apply Zplus_mod_idemp_l. Qed.

(** Under quiet events the deadline stands, the millisecond counter is the
    number of ticks, and only a pass that finds the timer expired goes to
    sleep. *)
Lemma quiet_step e w :
  quiet_event e -> millis w = wrap32 (ticks w) ->
  let w' := step_c e w in
  sleepTimer w' = sleepTimer w /\
  millis w' = wrap32 (ticks w') /\
  ticks w <= ticks w' /\
  sleeps w' = sleeps w +
    match e with
    | EvLoop _ => if sleepTimer w <=? millis w then 1 else 0
    | _ => 0
    end.
Proof.
  intros Hq Hm. destruct e as [upd|upd|loopEntry|f frame].
  1: pose proof (timer_step_spec (EvTimer256 upd) upd w (or_introl eq_refl)) as H.
  2: pose proof (timer_step_spec (EvTimer1000 upd) upd w (or_intror eq_refl)) as H.
  1,2: destruct H as (_ & _ & _ & _ & [(Hc & Hm' & Ht)|(Hc & Hm' & Ht)]);
       cbv zeta;
       [ destruct (counts_same_calls _ _ Hc) as (Et & Es)
       | destruct (counts_tick _ _ Hc) as (Et & Es); specialize (Ht Hq) ];
       rewrite Et, Es, Hm', Ht, ?Hm, ?wrap32_succ; repeat split; lia.
  - destruct (run_loop_spec loopEntry w)
      as (_ & _ & _ & Ht & Hm' & _).
    cbn [step]. cbv zeta in *. rewrite Ht, Hm'.
    unfold ticks, sleeps.
    rewrite (run_loop_filter is_tick) by apply blind_is_tick.
    rewrite (run_loop_filter is_power_sleep) by apply blind_is_power_sleep.
    fold (ticks w). rewrite Hm.
    destruct (sleepTimer w <=? wrap32 (ticks w)); cbn; unfold ticks; repeat split; lia.
  - destruct (ir_receive_spec f frame w) as (_ & _ & Hc & Hm' & Ht & _).
    cbn [step]. cbv zeta in *. unfold ticks, sleeps. rewrite Hc, Hm', Ht.
    fold (ticks w). repeat split; lia.
Qed.

Lemma quiet_exec es : forall w,
  Forall quiet_event es -> millis w = wrap32 (ticks w) ->
  let w' := exec_c es w in
  sleepTimer w' = sleepTimer w /\
  millis w' = wrap32 (ticks w') /\
  ticks w <= ticks w' /\
  (ticks w' < sleepTimer w -> ticks w' < 4294967296 -> sleeps w' = sleeps w).
Proof.
  induction es as [|e es IH]; intros w Hq Hm.
  - cbn. repeat split; auto. lia.
  - inversion Hq as [|? ? Hqe Hqes]; subst.
    destruct (quiet_step e w Hqe Hm) as (Ht1 & Hm1 & Hle1 & Hs1).
    destruct (IH _ Hqes Hm1) as (Ht2 & Hm2 & Hle2 & Hs2).
    cbv zeta in *. change (exec_c (e :: es) w) with (exec_c es (step_c e w)).
    repeat split; try congruence; try lia.
    intros Hlt Hb. rewrite Hs2 by lia. rewrite Hs1.
    assert (H0 : 0 <= ticks w) by (unfold ticks; lia).
    destruct e; try lia.
    rewrite Hm. unfold wrap32. rewrite Z.mod_small by lia.
    destruct (Z.leb_spec (sleepTimer w) (ticks w)); lia.
Qed.

(** ** What persists across the run *)

Lemma descriptor_kept_refl o : descriptor_kept o o.
Proof. destruct o; cbn; auto. Qed.

Lemma descriptor_kept_trans o1 o2 o3 :
  descriptor_kept o1 o2 -> descriptor_kept o2 o3 -> descriptor_kept o1 o3.
Proof.
  destruct o1, o2, o3; cbn; try tauto. intros (E1 & R1) (E2 & R2).
  split; [congruence|auto].
Qed.

Lemma processPendingIRPackets_view_cases f w :
  face_view f (pipeline_c w) = face_view f w \/
  face_view f (pipeline_c w) = process_face_on_view (face_view f w).
Proof.
  unfold processPendingIRPackets.
  rewrite (for_loop_local face_view process_face).
  - destruct (decide _); [right; apply process_face_same | left; reflexivity].
  - intros f' g s Hne. apply process_face_other. exact Hne.
  - intros f' s1 s2 E. rewrite !process_face_same, E. reflexivity.
Qed.

Lemma processPendingIRPackets_descriptor f w :
  descriptor_kept (ir_data_buffers (loopstate_in w) !! f)
    (ir_data_buffers (loopstate_in (pipeline_c w)) !! f).
Proof.
  destruct (processPendingIRPackets_view_cases f w) as [E|E];
    unfold face_view in E.
  - injection E as _ E _. rewrite E. apply descriptor_kept_refl.
  - unfold process_face_on_view in E.
    repeat match type of E with
           | context [if ?b then _ else _] => destruct b
           end;
      injection E as _ E _; rewrite E;
      try apply descriptor_kept_refl.
    destruct (ir_data_buffers (loopstate_in w) !! f); cbn; auto.
Qed.

Lemma step_descriptor e w f :
  descriptor_kept (ir_data_buffers (loopstate_in w) !! f)
    (ir_data_buffers (loopstate_in (step_c e w)) !! f).
Proof.
  destruct e as [upd|upd|loopEntry|g frame].
  - destruct (timer_step_spec (EvTimer256 upd) upd w
                (or_introl eq_refl)) as (E & _).
    cbv zeta in E. rewrite E. apply descriptor_kept_refl.
  - destruct (timer_step_spec (EvTimer1000 upd) upd w
                (or_intror eq_refl)) as (E & _).
    cbv zeta in E. rewrite E. apply descriptor_kept_refl.
  - destruct (run_loop_spec loopEntry w)
      as (_ & _ & E & _).
    cbn [step]. cbv zeta in E. rewrite E.
    pose proof (processPendingIRPackets_descriptor f (updateMillisSnapshot w)) as H.
    world_simpl_in H.
    destruct (sleepTimer w <=? millis w); world_simpl; exact H.
  - destruct (ir_receive_spec g frame w) as (E & _).
    cbn [step]. cbv zeta in E. rewrite E. apply descriptor_kept_refl.
Qed.

Lemma exec_descriptor es : forall w f,
  descriptor_kept (ir_data_buffers (loopstate_in w) !! f)
    (ir_data_buffers (loopstate_in (exec_c es w)) !! f).
Proof.
  induction es as [|e es IH]; intros w f.
  - apply descriptor_kept_refl.
  - change (exec_c (e :: es) w) with (exec_c es (step_c e w)).
    eapply descriptor_kept_trans; [apply step_descriptor|apply IH].
Qed.

(** The pointer loop of [run()] on its own face. *)
Lemma set_buffer_pointers w f :
  ir_data_buffers (loopstate_in (for_loop IR_FACE_COUNT 0 set_buffer_pointer w)) !! f =
  if decide (f < IR_FACE_COUNT)%nat
  then (fun b => mk_ir_data_buffer (PacketBuffer f 1) (len b) 0)
         <$> ir_data_buffers (loopstate_in w) !! f
  else ir_data_buffers (loopstate_in w) !! f.
Proof.
  pose (view := fun (f : nat) (w : world) => ir_data_buffers (loopstate_in w) !! f).
  assert (H : view f (for_loop IR_FACE_COUNT 0 set_buffer_pointer w) =
              if decide (0 <= f < 0 + IR_FACE_COUNT)%nat
              then view f (set_buffer_pointer f w) else view f w).
  { apply (for_loop_local view set_buffer_pointer).
    - intros f' g s Hne. unfold view, set_buffer_pointer. world_simpl.
      rewrite list_lookup_insert_ne by congruence. reflexivity.
    - intros f' s1 s2 E. unfold view in *. unfold set_buffer_pointer. world_simpl.
      rewrite !lookup_insert_same, !list_lookup_total_alt, E. reflexivity. }
  unfold view in H. rewrite H.
  destruct (decide (f < IR_FACE_COUNT)%nat);
    [rewrite decide_True by lia | rewrite decide_False by lia; reflexivity].
  unfold set_buffer_pointer. world_simpl.
  rewrite lookup_insert_same, list_lookup_total_alt.
  destruct (ir_data_buffers (loopstate_in w) !! f); reflexivity.
Qed.

Lemma set_buffer_pointers_outside w :
  let w' := for_loop IR_FACE_COUNT 0 set_buffer_pointer w in
  calls w' = calls w /\ millis w' = millis w /\ step_us w' = step_us w /\
  sleepTimer w' = sleepTimer w /\ ir w' = ir w /\
  woke_flag (loopstate_in w') = woke_flag (loopstate_in w).
Proof.
  apply (for_loop_inv (fun w' =>
    calls w' = calls w /\ millis w' = millis w /\ step_us w' = step_us w /\
    sleepTimer w' = sleepTimer w /\ ir w' = ir w /\
    woke_flag (loopstate_in w') = woke_flag (loopstate_in w))).
  - intros f s H. unfold set_buffer_pointer. world_simpl. exact H.
  - repeat split.
Qed.

(** The state in which [run()] enters its [while (1)] after power-up. *)
Lemma run_init_spec bufsize :
  let w := run_init_c (power_up_c bufsize) in
  calls w = [Call_setupEntry; Call_button_enable_pu; Call_pixel_enable; Call_ir_enable] /\
  millis w = 0 /\ step_us w = 0 /\ sleepTimer w = 600000 /\
  forall f, (f < IR_FACE_COUNT)%nat ->
    ir_data_buffers (loopstate_in w) !! f = Some (mk_ir_data_buffer (PacketBuffer f 1) 0 0).
Proof.
  unfold run_init, postponeSleep, Timer_set. world_simpl.
  destruct (set_buffer_pointers_outside (power_up_c bufsize)) as (Hc & Hm & Hs & _).
  cbv zeta in Hc, Hm, Hs. rewrite Hc, Hm, Hs. cbn [power_up calls millis step_us].
  repeat split.
  intros f Hf. rewrite set_buffer_pointers, decide_True by exact Hf.
  cbn [power_up loopstate_in ir_data_buffers].
  rewrite lookup_replicate_2 by exact Hf. reflexivity.
Qed.

(** Once set, the woke flag stays set. *)
Lemma step_woke e w :
  woke_flag (loopstate_in w) = 1 -> woke_flag (loopstate_in (step_c e w)) = 1.
Proof.
  intros Hw. destruct e as [upd|upd|loopEntry|g frame].
  - destruct (timer_step_spec (EvTimer256 upd) upd w
                (or_introl eq_refl)) as (E & _).
    cbv zeta in E. rewrite E. exact Hw.
  - destruct (timer_step_spec (EvTimer1000 upd) upd w
                (or_intror eq_refl)) as (E & _).
    cbv zeta in E. rewrite E. exact Hw.
  - destruct (run_loop_spec loopEntry w)
      as (_ & _ & E & _).
    cbn [step]. cbv zeta in E. rewrite E.
    destruct (sleepTimer w <=? millis w); world_simpl; [reflexivity|exact Hw].
  - destruct (ir_receive_spec g frame w) as (E & _).
    cbn [step]. cbv zeta in E. rewrite E. exact Hw.
Qed.

Lemma exec_woke es : forall w,
  woke_flag (loopstate_in w) = 1 -> woke_flag (loopstate_in (exec_c es w)) = 1.
Proof.
  induction es as [|e es IH]; intros w Hw; [exact Hw|].
  change (exec_c (e :: es) w) with (exec_c es (step_c e w)).
  apply IH, step_woke, Hw.
Qed.

Lemma step_crc_calls e w :
  crc_calls_ok (calls w) -> crc_calls_ok (calls (step_c e w)).
Proof.
  intros Hok. destruct e as [upd|upd|loopEntry|g frame].
  1: pose proof (timer_step_spec (EvTimer256 upd) upd w
                   (or_introl eq_refl)) as H.
  2: pose proof (timer_step_spec (EvTimer1000 upd) upd w
                   (or_intror eq_refl)) as H.
  1,2: destruct H as (_ & _ & _ & _ & [(Hc & _)|(Hc & _)]); cbv zeta in Hc;
       rewrite Hc; [exact Hok|]; intros f len [Hin|Hin]; [discriminate|eauto].
  - destruct (run_loop_calls loopEntry w)
      as (new & i & Hf & _ & Hc).
    cbn [step]. rewrite Hc. intros f len Hin.
    apply in_app_or in Hin. destruct Hin as [Hin|Hin].
    { destruct (sleepTimer w <=? millis w); cbn in Hin;
        intuition discriminate. }
    destruct Hin as [Hin|Hin]; [discriminate|].
    apply in_app_or in Hin. destruct Hin as [Hin|Hin].
    { apply in_rev, in_map_iff in Hin. destruct Hin as (q & Hq & _). discriminate. }
    destruct Hin as [Hin|Hin]; [discriminate|].
    apply in_app_or in Hin. destruct Hin as [Hin|Hin]; [|eauto].
    rewrite Forall_forall in Hf. apply Hf in Hin. exact Hin.
  - destruct (ir_receive_spec g frame w) as (_ & _ & Hc & _).
    cbn [step]. cbv zeta in Hc. rewrite Hc. exact Hok.
Qed.

Lemma exec_crc_calls es : forall w,
  crc_calls_ok (calls w) -> crc_calls_ok (calls (exec_c es w)).
Proof.
  induction es as [|e es IH]; intros w Hw; [exact Hw|].
  change (exec_c (e :: es) w) with (exec_c es (step_c e w)).
  apply IH, step_crc_calls, Hw.
Qed.

(** * The claims *)

Lemma new_calls_app w w' added :
  calls w' = added ++ calls w -> new_calls w w' = added.
Proof.
  intros E. unfold new_calls. rewrite E, length_app, Nat.add_sub.
  apply take_app_length.
Qed.

Lemma omap_pixel_writes (l : list (nat * pixelColor_t)) :
  omap sel_pixel_write
    (rev (map (fun p => Call_pixel_bufferedSetPixel (fst p) (snd p)) l)) = rev l.
Proof.
  induction l as [|[f c] l IH]; [reflexivity|].
  cbn [map rev fst snd]. rewrite omap_app, IH. reflexivity.
Qed.

(** What the pipeline does with a ready frame on face [f] that lies in the
    receive buffer: a valid user-data frame gets its descriptor filled in
    (length [packetLen - 1], ready flag 1) and is left with the driver;
    every other frame is marked consumed and its descriptor left alone. *)
Lemma pipeline_routing f w face :
  (f < IR_FACE_COUNT)%nat ->
  ir w !! f = Some face ->
  packet_ready face = true ->
  (Z.to_nat (wrap8 (packet_len face)) <= length (packet_buffer face))%nat ->
  face_view f (pipeline_c w) =
  if valid_user_frame (frame_of face)
  then (Some face,
        (fun b => mk_ir_data_buffer (data b) (wrap8 (packet_len face) - 1) 1)
          <$> ir_data_buffers (loopstate_in w) !! f,
        mark_reads f w)
  else (Some (mk_ir_face false (packet_len face) (packet_buffer face)),
        ir_data_buffers (loopstate_in w) !! f,
        mark_reads f w + 1).
Proof.
  intros Hf Hface Hready Hfit.
  rewrite processPendingIRPackets_view by exact Hf.
  rewrite valid_user_frame_tests by exact Hfit.
  unfold face_view, process_face_on_view. rewrite Hface.
  change (default inhabitant (Some face)) with face.
  change ((fun _ => mk_ir_face false (packet_len face) (packet_buffer face)) <$> Some face)
    with (Some (mk_ir_face false (packet_len face) (packet_buffer face))).
  rewrite Hready.
  destruct (wrap8 (packet_len face) <? 2); [reflexivity|].
  destruct (crccheck _ _); [|reflexivity].
  destruct (deref _ 0 =? 1); reflexivity.
Qed.

(** C2. For a ready frame of at least two bytes, the pipeline's checksum test
    holds exactly when the frame's final byte is the CRC-8-CCITT (seed 0xFF)
    of all the bytes before it; when it fails, the frame is marked consumed
    (once) and the face's descriptor is left as it was. *)
Theorem checksum_gate f w face :
  (f < IR_FACE_COUNT)%nat ->
  ir w !! f = Some face ->
  packet_ready face = true ->
  2 <= wrap8 (packet_len face) ->
  (Z.to_nat (wrap8 (packet_len face)) <= length (packet_buffer face))%nat ->
  crccheck (packet_buffer face) (wrap8 (packet_len face)) = checksum_ok (frame_of face) /\
  (checksum_ok (frame_of face) = false ->
   let w' := pipeline_c w in
   ir w' !! f = Some (mk_ir_face false (packet_len face) (packet_buffer face)) /\
   mark_reads f w' = mark_reads f w + 1 /\
   ir_data_buffers (loopstate_in w') !! f = ir_data_buffers (loopstate_in w) !! f).
Proof.
  intros Hf Hface Hready Hlen Hfit.
  assert (Hr : 0 <= wrap8 (packet_len face) < 256) by (apply Z.mod_pos_bound; lia).
  split.
  - apply crccheck_checksum_ok; lia.
  - intros Hbad w'.
    pose proof (pipeline_routing f w face Hf Hface Hready Hfit) as E.
    unfold valid_user_frame in E. rewrite Hbad, andb_false_r in E. cbn [andb] in E.
    unfold face_view in E. injection E as E1 E2 E3. auto.
Qed.

(** C4. A ready frame that is not a valid user-data frame (too short, bad
    checksum, header 0x02 or any other header) is marked consumed, once, and
    nothing of [loopstate_in] changes for it: the face's descriptor, and the
    woke flag, time stamp and button state, are as before. *)
Theorem invalid_frame_dropped f w face :
  (f < IR_FACE_COUNT)%nat ->
  ir w !! f = Some face ->
  packet_ready face = true ->
  (Z.to_nat (wrap8 (packet_len face)) <= length (packet_buffer face))%nat ->
  valid_user_frame (frame_of face) = false ->
  let w' := pipeline_c w in
  ir w' !! f = Some (mk_ir_face false (packet_len face) (packet_buffer face)) /\
  mark_reads f w' = mark_reads f w + 1 /\
  ir_data_buffers (loopstate_in w') !! f = ir_data_buffers (loopstate_in w) !! f /\
  woke_flag (loopstate_in w') = woke_flag (loopstate_in w) /\
  in_millis (loopstate_in w') = in_millis (loopstate_in w) /\
  in_buttonstate (loopstate_in w') = in_buttonstate (loopstate_in w).
Proof.
  intros Hf Hface Hready Hfit Hbad w'.
  pose proof (pipeline_routing f w face Hf Hface Hready Hfit) as E.
  rewrite Hbad in E. unfold face_view in E. injection E as E1 E2 E3.
  destruct (processPendingIRPackets_outside w) as (H1 & H2 & H3 & _).
  auto 10.
Qed.

(** C6. [grabAndClearButtonState] copies the three fields into the
    destination and clears only the flags of the source; a second grab with
    no tick in between returns the same down and click count, and no flags. *)
Theorem grabAndClearButtonState_twice d d' w :
  let r1 := grabAndClearButtonState d w in
  let r2 := grabAndClearButtonState d' (snd r1) in
  fst r1 = mk_buttonstate (bitflags (buttonstate w)) (clickcount (buttonstate w))
             (down (buttonstate w)) /\
  snd r1 = set_buttonstate
             (mk_buttonstate 0 (clickcount (buttonstate w)) (down (buttonstate w))) w /\
  down (fst r2) = down (fst r1) /\
  clickcount (fst r2) = clickcount (fst r1) /\
  bitflags (fst r2) = 0.
Proof. unfold grabAndClearButtonState. cbn. repeat split. Qed.

(** C5. After [n] timer interrupts from a zero accumulator the millisecond
    callback has run exactly [floor (256 n / 1000)] times and the accumulator
    holds the remainder [256 n mod 1000]. *)
Theorem timer_256us_no_drift (upds : list debounce) w :
  step_us w = 0 ->
  let n := Z.of_nat (length upds) in
  let w' := fold_left (fun w upd => timer_256us_callback_sei upd w) upds w in
  ticks w' - ticks w = 256 * n / 1000 /\
  step_us w' = (256 * n) mod 1000.
Proof.
  intros H0 n w'.
  destruct (timer_256us_run_spec upds w ltac:(lia)) as (Hr & E).
  cbv zeta in Hr, E. fold w' in Hr, E. fold n in E. rewrite H0 in E.
  split.
  - apply (Z.div_unique_pos _ _ _ (step_us w')); lia.
  - apply (Z.mod_unique_pos _ _ (ticks w' - ticks w)); lia.
Qed.

(** C7. In one pass of the loop the writes forwarded to the display buffer
    are exactly the faces whose output colour carries the dirty bit; a face
    without the bit is not written and keeps the colour it had. *)
Theorem only_dirty_faces_forwarded loopEntry w :
  let w' := run_loop_c loopEntry w in
  let out := loopstate_out w' in
  pixel_writes (new_calls w w') = dirty_faces out 0 PIXEL_FACE_COUNT /\
  forall f, reserved (colors out !!! f) = false ->
    pixel_buffer w' !! f = pixel_buffer w !! f /\
    ~ In f (map fst (pixel_writes (new_calls w w'))).
Proof.
  intros w' out.
  destruct (run_loop_calls loopEntry w)
    as (new & i & Hf & _ & Hc).
  fold w' in Hc. fold out in Hc.
  set (slp := if sleepTimer w <=? millis w then sleep_calls else []) in *.
  set (wr := rev (map (fun p => Call_pixel_bufferedSetPixel (fst p) (snd p))
                    (dirty_faces out 0 PIXEL_FACE_COUNT))) in *.
  assert (Hc' : calls w' =
                (slp ++ [Call_pixel_displayBufferedPixels] ++ wr ++ [Call_loopEntry i] ++ new)
                ++ calls w).
  { rewrite Hc, <- !app_assoc. reflexivity. }
  assert (Hw : pixel_writes (new_calls w w') = dirty_faces out 0 PIXEL_FACE_COUNT).
  { rewrite (new_calls_app _ _ _ Hc'). unfold pixel_writes.
    rewrite !omap_app. subst wr. rewrite omap_pixel_writes.
    rewrite (omap_none sel_pixel_write new).
    2:{ eapply Forall_impl; [|exact Hf]. intros c Hc0.
        destruct c; cbn in Hc0; try contradiction; reflexivity. }
    rewrite (omap_none sel_pixel_write slp)
      by (subst slp; destruct (sleepTimer w <=? millis w); repeat constructor).
    cbn [omap app]. rewrite !app_nil_r. apply rev_involutive. }
  split; [exact Hw|].
  intros f Hclean. split.
  - destruct (run_loop_spec loopEntry w)
      as (_ & Ho & _ & _ & _ & _ & _ & _ & Hbuf).
    cbv zeta in Ho, Hbuf. fold w' in Ho, Hbuf. fold out in Ho. rewrite <- Ho in Hbuf.
    rewrite Hbuf, Hclean, andb_false_r. reflexivity.
  - rewrite Hw. unfold dirty_faces. intros Hin.
    apply in_map_iff in Hin. destruct Hin as ([g c] & Hg & Hin). cbn in Hg. subst g.
    apply filter_In in Hin. destruct Hin as (Hin & Hres). cbn in Hres.
    apply in_map_iff in Hin. destruct Hin as (g & Hg & _).
    injection Hg as <- <-. congruence.
Qed.

(** C8. Start the loop at power-up and let 600,000 one-millisecond ticks go
    by without button activity, the loop passing as often as it likes before
    the last tick: the loop has not gone to sleep; the timer is then expired
    for the next clock snapshot, and the next pass takes the Awake-to-Asleep
    transition, once.  (That pass blocks in [power_sleep] until a button
    interrupt, which the scenario excludes.) *)
Theorem sleep_after_timeout bufsize es upd loopEntry :
  Forall quiet_event es ->
  quiet upd ->
  let w0 := run_init_c (power_up_c bufsize) in
  ticks (exec_c es w0) = 599999 ->
  let w := exec_c (es ++ [EvTimer1000 upd]) w0 in
  ticks w = 600000 /\
  sleeps w = 0 /\
  Timer_isExpired (updateMillisSnapshot w) = true /\
  sleeps (exec_c (es ++ [EvTimer1000 upd; EvLoop loopEntry]) w0) = 1.
Proof.
  intros Hq Hupd w0 Hticks w.
  destruct (run_init_spec bufsize)
    as (Hc0 & Hm0 & _ & Ht0 & _).
  fold w0 in Hc0, Hm0, Ht0.
  assert (Hk0 : ticks w0 = 0 /\ sleeps w0 = 0)
    by (unfold ticks, sleeps; rewrite Hc0; split; reflexivity).
  destruct Hk0 as (Hk0 & Hs0).
  destruct (quiet_exec es w0 Hq)
    as (Ht1 & Hm1 & _ & Hs1).
  { rewrite Hm0, Hk0. reflexivity. }
  cbv zeta in Ht1, Hm1, Hs1. rewrite Hticks in Hm1, Hs1. rewrite Ht0 in Ht1, Hs1.
  specialize (Hs1 ltac:(lia) ltac:(lia)). rewrite Hs0 in Hs1.
  change (wrap32 599999) with 599999 in Hm1.
  set (w1 := exec_c es w0) in *.
  assert (Ew : w = timer_1000us_callback_sei upd w1).
  { subst w w1. rewrite exec_app. reflexivity. }
  destruct (timer_1000us_spec upd w1) as (Hc2 & _ & Hm2 & Ht2 & _).
  cbv zeta in Hc2, Hm2, Ht2. rewrite <- Ew in Hc2, Hm2, Ht2.
  rewrite Hupd, Ht1 in Ht2. rewrite Hm1 in Hm2. change (wrap32 (599999 + 1)) with 600000 in Hm2.
  destruct (counts_tick _ _ Hc2) as (Hk2 & Hs2). rewrite Hticks in Hk2. rewrite Hs1 in Hs2.
  split; [rewrite Hk2; reflexivity|]. split; [exact Hs2|]. split.
  - unfold Timer_isExpired. world_simpl. rewrite Ht2, Hm2. reflexivity.
  - change (es ++ [EvTimer1000 upd; EvLoop loopEntry])
      with (es ++ [EvTimer1000 upd] ++ [EvLoop loopEntry]).
    rewrite app_assoc, exec_app. fold w. cbn [exec fold_left].
    destruct (quiet_step (EvLoop loopEntry) w I)
      as (_ & _ & _ & Hs3).
    { rewrite Hm2, Hk2. reflexivity. }
    cbv zeta in Hs3. cbn [step] in Hs3 |- *. rewrite Hs3, Hs2, Ht2, Hm2. reflexivity.
Qed.

(** C9. At startup every descriptor gets the pointer to its face's packet
    buffer plus one and a ready flag of 0; whatever happens afterwards, the
    pointer stays what it is, and a ready flag that is set stays set. *)
Theorem descriptors_persist bufsize es1 es2 f :
  (f < IR_FACE_COUNT)%nat ->
  let w1 := run_init_c (power_up_c bufsize) in
  let w2 := exec_c es1 w1 in
  let w3 := exec_c es2 w2 in
  let d := fun w => ir_data_buffers (loopstate_in w) !!! f in
  data (d w1) = ptr_add (PacketBuffer f 0) 1 /\
  ready_flag (d w1) = 0 /\
  data (d w2) = data (d w1) /\
  (ready_flag (d w2) = 1 -> ready_flag (d w3) = 1).
Proof.
  intros Hf w1 w2 w3 d.
  destruct (run_init_spec bufsize) as (_ & _ & _ & _ & Hb).
  specialize (Hb f Hf). fold w1 in Hb.
  pose proof (exec_descriptor es1 w1 f) as H12.
  pose proof (exec_descriptor es2 w2 f) as H23.
  fold w2 in H12, H23. fold w3 in H23. subst d. cbv beta.
  rewrite !list_lookup_total_alt. rewrite Hb in *.
  destruct (ir_data_buffers (loopstate_in w2) !! f) as [b2|]; [|contradiction].
  destruct (ir_data_buffers (loopstate_in w3) !! f) as [b3|]; [|contradiction].
  cbn in H12, H23 |- *. intuition.
Qed.

(** C10. Every call of [crccheck] the pipeline makes has a length of at
    least 2 (and, being a [uint8_t], below 256); on such a length the loop
    dereferences exactly the offsets [0 .. len - 2], the comparison reads
    offset [len - 1], and no offset at or past [len] is touched. *)
Theorem crccheck_reads_in_frame :
  (forall bufsize es f len,
     In (Call_crccheck f len) (calls (exec_c es (run_init_c (power_up_c bufsize)))) ->
     2 <= len < 256) /\
  (forall mem len,
     2 <= len < 256 ->
     let n := Z.to_nat (len - 1) in
     crccheck_loop 256 mem 0xFF len 0 [] =
       Some (crc8_ccitt (bytes_at mem 0 n), n, rev (seq 0 n)) /\
     crccheck_traced mem len =
       Some (deref mem n =? crc8_ccitt (bytes_at mem 0 n), seq 0 n ++ [n]) /\
     Forall (fun off => (off < Z.to_nat len)%nat) (seq 0 n ++ [n])).
Proof.
  split.
  - intros bufsize es f len.
    apply (exec_crc_calls es).
    destruct (run_init_spec bufsize) as (Hc & _).
    cbv zeta in Hc. rewrite Hc. intros g l Hin. cbn in Hin. intuition discriminate.
  - intros mem len Hlen n. split; [|split].
    + rewrite (crccheck_loop_spec n) by (subst n; lia).
      rewrite app_nil_r. reflexivity.
    + apply crccheck_traced_spec. lia.
    + apply Forall_forall. intros off Hin. apply in_app_or in Hin.
      destruct Hin as [Hin|[<-|[]]]; [apply in_seq in Hin|]; subst n; lia.
Qed.

(** C3, as the code has it. [sleep()] returns with the woke flag set, and the
    core never clears it: the next pass of the loop hands the callback an
    input record with the flag set, and so does every later pass. *)
Theorem woke_flag_sticks w es loopEntry :
  let w1 := sleep w in
  woke_flag (loopstate_in w1) = 1 /\
  exists i,
    loop_inputs (exec_c (es ++ [EvLoop loopEntry]) w1) =
    loop_inputs (exec_c es w1) ++ [i] /\
    woke_flag i = 1.
Proof.
  intros w1. split; [reflexivity|].
  rewrite exec_app. cbn [exec fold_left step].
  destruct (run_loop_inputs loopEntry (exec_c es w1))
    as (i & Hw & Hi).
  exists i. split; [exact Hi|].
  rewrite Hw. apply exec_woke. reflexivity.
Qed.

End Properties.

(** * The claims at concrete inputs *)

(** C1. The valid four-byte user-data frame [frame_HI] on face 2 is surfaced
    with the ready flag set and is left with the driver, but the descriptor's
    length is 3, the frame length minus one: it counts the checksum byte. *)
Theorem user_frame_len_counts_checksum :
  ir tile_with_HI !! 2%nat = Some (mk_ir_face true 4 (frame_HI ++ [0; 0; 0; 0])) /\
  valid_user_frame frame_HI = true /\
  ir_data_buffers (loopstate_in (processPendingIRPackets 6 tile_with_HI)) !! 2%nat =
    Some (mk_ir_data_buffer (PacketBuffer 2 1) 3 1) /\
  ir (processPendingIRPackets 6 tile_with_HI) !! 2%nat = ir tile_with_HI !! 2%nat /\
  mark_reads 2 (processPendingIRPackets 6 tile_with_HI) = mark_reads 2 tile_with_HI.
Proof. vm_compute. repeat split. Qed.

(** C2 on the corrupted frame: the checksum test fails and the frame is
    marked consumed. *)
Lemma checksum_gate_witness :
  crccheck (frame_HI_bad ++ [0; 0; 0; 0]) 4 = false /\
  mark_reads 2 (processPendingIRPackets 6 tile_with_bad_HI) = 1.
Proof.
  destruct (checksum_gate 6 2 tile_with_bad_HI
              (mk_ir_face true 4 (frame_HI_bad ++ [0; 0; 0; 0])))
    as (E & H).
  - vm_compute. lia.
  - reflexivity.
  - reflexivity.
  - vm_compute. discriminate.
  - vm_compute. lia.
  - split; [exact E|].
    destruct (H eq_refl) as (_ & Hm & _). exact Hm.
Defined.

(** C4 on the corrupted frame: the driver's face is no longer ready. *)
Lemma invalid_frame_dropped_witness :
  ir (processPendingIRPackets 6 tile_with_bad_HI) !! 2%nat =
  Some (mk_ir_face false 4 (frame_HI_bad ++ [0; 0; 0; 0])).
Proof.
  destruct (invalid_frame_dropped 6 2 tile_with_bad_HI
              (mk_ir_face true 4 (frame_HI_bad ++ [0; 0; 0; 0])))
    as (E & _).
  - vm_compute. lia.
  - reflexivity.
  - reflexivity.
  - vm_compute. lia.
  - reflexivity.
  - exact E.
Defined.

(** C5 on eight interrupts: 2048 time units, two ticks. *)
Lemma timer_256us_no_drift_witness :
  ticks (fold_left (fun w upd => timer_256us_callback_sei upd w)
           (repeat quiet_debounce 8) tile_started) - ticks tile_started = 2.
Proof.
  destruct (timer_256us_no_drift (repeat quiet_debounce 8) tile_started) as (E & _).
  - reflexivity.
  - exact E.
Defined.

(** C7 with [paint_loop]: face 0, set with the dirty bit, is the only face
    written; face 1, set without it, keeps its display-buffer entry. *)
Lemma only_dirty_faces_forwarded_witness :
  pixel_writes (new_calls tile_started (run_loop 6 6 paint_loop tile_started)) =
    [(0%nat, mk_pixelColor true 5)] /\
  pixel_buffer (run_loop 6 6 paint_loop tile_started) !! 1%nat =
  pixel_buffer tile_started !! 1%nat.
Proof.
  destruct (only_dirty_faces_forwarded 6 6 paint_loop tile_started) as (E & H).
  split.
  - rewrite E. vm_compute. reflexivity.
  - destruct (H 1%nat) as (E1 & _).
    + vm_compute. reflexivity.
    + exact E1.
Defined.

Lemma quiet_quiet_debounce : quiet quiet_debounce.
Proof. intros b. reflexivity. Defined.

(** C8 on 600,000 quiet ticks followed by one pass of an idle loop. *)
Lemma sleep_after_timeout_witness :
  sleeps (exec 6 6 (repeat (EvTimer1000 quiet_debounce) (Z.to_nat 599999) ++
                    [EvTimer1000 quiet_debounce; EvLoop idle_loop])
            (run_init 6 (power_up 6 6 8))) = 1.
Proof.
  destruct (sleep_after_timeout 6 6 8
              (repeat (EvTimer1000 quiet_debounce) (Z.to_nat 599999))
              quiet_debounce idle_loop) as (_ & _ & _ & E).
  - apply Forall_forall. intros e He. apply repeat_spec in He. subst e.
    exact quiet_quiet_debounce.
  - exact quiet_quiet_debounce.
  - vm_compute. reflexivity.
  - exact E.
Defined.

(** C9 on face 2: the ready flag set by [frame_HI] is still set one pass
    later. *)
Lemma descriptors_persist_witness :
  (2 < 6)%nat /\
  ready_flag (ir_data_buffers (loopstate_in
    (exec 6 6 [EvIrPacket 2 frame_HI; EvLoop idle_loop]
       (run_init 6 (power_up 6 6 8)))) !!! 2%nat) = 1 /\
  ready_flag (ir_data_buffers (loopstate_in
    (exec 6 6 [EvLoop idle_loop]
       (exec 6 6 [EvIrPacket 2 frame_HI; EvLoop idle_loop]
          (run_init 6 (power_up 6 6 8))))) !!! 2%nat) = 1.
Proof.
  assert (Hf : (2 < 6)%nat) by lia.
  assert (Hr : ready_flag (ir_data_buffers (loopstate_in
            (exec 6 6 [EvIrPacket 2 frame_HI; EvLoop idle_loop]
               (run_init 6 (power_up 6 6 8)))) !!! 2%nat) = 1)
    by (vm_compute; reflexivity).
  split; [exact Hf|]. split; [exact Hr|].
  exact (proj2 (proj2 (proj2
    (descriptors_persist 6 6 8 [EvIrPacket 2 frame_HI; EvLoop idle_loop]
       [EvLoop idle_loop] 2 Hf))) Hr).
Defined.

(** C10 on [frame_HI]: the check the pipeline makes has length 4, and it
    reads offsets 0 to 3. *)
Lemma crccheck_reads_in_frame_witness :
  2 <= 4 < 256 /\
  crccheck_traced frame_HI 4 = Some (true, [0; 1; 2; 3]%nat).
Proof.
  destruct (crccheck_reads_in_frame 6 6) as (H1 & H2). split.
  - apply (H1 8%nat [EvIrPacket 2 frame_HI; EvLoop idle_loop] 2%nat 4).
    vm_compute. tauto.
  - destruct (H2 frame_HI 4) as (_ & E & _).
    + lia.
    + exact E.
Defined.

(** C3 as stated fails: after ten quiet minutes the tile sleeps once and is
    woken by a press; the two passes that follow both hand the callback an
    input record with the woke flag set. *)
Lemma woke_flag_seen_twice :
  wake_summary (exec 6 6 wake_schedule tile_started) = (1, [0; 1; 1], 2).
Proof. vm_compute. reflexivity. Qed.

(** * Further properties of the core *)

(** * Further properties of the code *)

(** ** The checksum *)

Lemma all_bytes_spec x : 0 <= x < 256 -> In x all_bytes.
Proof.
  intros Hx. unfold all_bytes. apply in_map_iff. exists (Z.to_nat x).
  split; [lia|]. apply in_seq. lia.
Qed.

Lemma forall_bytes (P : Z -> bool) :
  forallb P all_bytes = true -> forall x, 0 <= x < 256 -> P x = true.
Proof.
  intros H x Hx. rewrite forallb_forall in H. apply H, all_bytes_spec, Hx.
Qed.

Lemma wrap8_range z : 0 <= wrap8 z < 256.
Proof. unfold wrap8. apply Z.mod_pos_bound. lia. Qed.

Lemma wrap8_lxor a b : wrap8 (Z.lxor a b) = Z.lxor (wrap8 a) (wrap8 b).
Proof.
  unfold wrap8. change 256 with (2 ^ 8).
  rewrite <- !Z.land_ones by lia. apply Z.bits_inj'. intros i _.
  rewrite Z.land_spec, !Z.lxor_spec, !Z.land_spec.
  destruct (Z.testbit a i), (Z.testbit b i), (Z.testbit (Z.ones 8) i); reflexivity.
Qed.

Lemma lxor_cancel_l a b b' : Z.lxor a b = Z.lxor a b' -> b = b'.
Proof.
  intros E. apply (f_equal (Z.lxor a)) in E.
  rewrite <- !Z.lxor_assoc, Z.lxor_nilpotent, !Z.lxor_0_l in E. exact E.
Qed.

(** The rounds map bytes to bytes, one to one: the polynomial has a
    constant term, so no information is shifted out for good. *)
Lemma crc8_ccitt_rounds_byte x : 0 <= x < 256 -> 0 <= crc8_ccitt_rounds x < 256.
Proof.
  intros Hx.
  pose proof (forall_bytes (fun x => (0 <=? crc8_ccitt_rounds x) && (crc8_ccitt_rounds x <? 256))
                ltac:(vm_compute; reflexivity) x Hx) as H.
  cbv beta in H. apply andb_true_iff in H. destruct H as (H1 & H2).
  apply Z.leb_le in H1. apply Z.ltb_lt in H2. lia.
Qed.

Lemma crc8_ccitt_rounds_inj x y :
  0 <= x < 256 -> 0 <= y < 256 -> crc8_ccitt_rounds x = crc8_ccitt_rounds y -> x = y.
Proof.
  intros Hx Hy E.
  pose proof (forall_bytes
                (fun x => forallb (fun y => implb (crc8_ccitt_rounds x =? crc8_ccitt_rounds y) (x =? y))
                            all_bytes)
                ltac:(vm_compute; reflexivity) x Hx) as H.
  cbv beta in H. pose proof (forall_bytes _ H y Hy) as H'. cbv beta in H'.
  rewrite E, Z.eqb_refl in H'. cbn in H'. apply Z.eqb_eq in H'. exact H'.
Qed.

Lemma crc8_update_byte c d : 0 <= _crc8_ccitt_update c d < 256.
Proof. apply crc8_ccitt_rounds_byte, wrap8_range. Qed.

Lemma crc8_update_inj_data c d d' :
  0 <= d < 256 -> 0 <= d' < 256 ->
  _crc8_ccitt_update c d = _crc8_ccitt_update c d' -> d = d'.
Proof.
  intros Hd Hd' E. apply crc8_ccitt_rounds_inj in E; try apply wrap8_range.
  rewrite !wrap8_lxor in E. apply lxor_cancel_l in E.
  rewrite !wrap8_small in E by lia. exact E.
Qed.

Lemma crc8_update_inj_state c c' d :
  0 <= c < 256 -> 0 <= c' < 256 ->
  _crc8_ccitt_update c d = _crc8_ccitt_update c' d -> c = c'.
Proof.
  intros Hc Hc' E. apply crc8_ccitt_rounds_inj in E; try apply wrap8_range.
  rewrite !wrap8_lxor, (Z.lxor_comm (wrap8 c)), (Z.lxor_comm (wrap8 c')) in E.
  apply lxor_cancel_l in E. rewrite !wrap8_small in E by lia. exact E.
Qed.

Lemma crc8_fold_byte bytes : forall c,
  0 <= c < 256 -> 0 <= fold_left _crc8_ccitt_update bytes c < 256.
Proof.
  induction bytes as [|d bytes IH]; intros c Hc; cbn [fold_left]; [exact Hc|].
  apply IH, crc8_update_byte.
Qed.

Lemma crc8_fold_inj bytes : forall c c',
  0 <= c < 256 -> 0 <= c' < 256 ->
  fold_left _crc8_ccitt_update bytes c = fold_left _crc8_ccitt_update bytes c' -> c = c'.
Proof.
  induction bytes as [|d bytes IH]; intros c c' Hc Hc' E; cbn [fold_left] in E; [exact E|].
  apply IH in E; try apply crc8_update_byte.
  apply (crc8_update_inj_state c c' d Hc Hc' E).
Qed.

Lemma checksum_ok_snoc body k :
  checksum_ok (body ++ [k]) = (k =? crc8_ccitt body).
Proof.
  unfold checksum_ok. rewrite length_app. cbn [length].
  replace (length body + 1 - 1)%nat with (length body) by lia.
  rewrite lookup_app_r by lia. rewrite Nat.sub_diag. cbn [lookup list_lookup].
  rewrite take_app_length. reflexivity.
Qed.

Lemma crccheck_traced_wrap8 mem len :
  crccheck_traced mem len = crccheck_traced mem (wrap8 len).
Proof.
  unfold crccheck_traced.
  replace (wrap8 (wrap8 len)) with (wrap8 len) by (unfold wrap8; symmetry; apply Zmod_mod).
  reflexivity.
Qed.

Lemma crccheck_loop_wrap mem :
  crccheck_loop (S 255) mem 0xFF 0 0 [] =
  Some (fold_left _crc8_ccitt_update (bytes_at mem 1 254)
          (_crc8_ccitt_update 0xFF (deref mem 0)),
        (1 + 254)%nat, rev (seq 1 254) ++ [0%nat]).
Proof.
  rewrite crccheck_loop_S.
  change (wrap8 (0 - 1)) with 255. change (255 =? 0) with false. cbv iota.
  rewrite (crccheck_loop_spec 254) by lia. reflexivity.
Qed.

Lemma crccheck_traced_of_loop mem len c data rd :
  crccheck_loop 256 mem 0xFF (wrap8 len) 0 [] = Some (c, data, rd) ->
  crccheck_traced mem len = Some (deref mem data =? c, rev rd ++ [data]).
Proof. intros E. unfold crccheck_traced. rewrite E. reflexivity. Qed.

Lemma crc8_ccitt_cons b bytes :
  crc8_ccitt (b :: bytes) = fold_left _crc8_ccitt_update bytes (_crc8_ccitt_update 0xFF b).
Proof. reflexivity. Qed.

(** A length of 0: the [uint8_t] counter wraps to 255, the loop runs 255
    times and the comparison reads offset 255. *)
Lemma crccheck_traced_0 mem :
  crccheck_traced mem 0 =
  Some (deref mem (1 + 254) =? crc8_ccitt (deref mem 0 :: bytes_at mem 1 254),
        (0%nat :: seq 1 254) ++ [(1 + 254)%nat]).
Proof.
  rewrite (crccheck_traced_of_loop mem 0 _ _ _ (crccheck_loop_wrap mem)).
  rewrite rev_app_distr, rev_involutive, crc8_ccitt_cons. reflexivity.
Qed.

(** X1. [crccheck] returns for every length.  With [n = (len - 1) mod 256]
    it folds the update over offsets [0 .. n - 1] and compares offset [n]:
    a length of 1 compares the first byte with the seed 0xFF, and a length
    of 0 wraps the counter and reads offsets 0 to 255. *)
Theorem crccheck_any_length mem len :
  let n := Z.to_nat ((len - 1) mod 256) in
  crccheck_traced mem len =
  Some (deref mem n =? crc8_ccitt (bytes_at mem 0 n), seq 0 n ++ [n]).
Proof.
  intros n. pose proof (wrap8_range len) as Hr.
  rewrite crccheck_traced_wrap8.
  destruct (Z.eq_dec (wrap8 len) 0) as [E0|E0].
  - assert (Hn : n = (1 + 254)%nat).
    { subst n. unfold wrap8 in E0.
      rewrite <- (Zminus_mod_idemp_l len 1 256), E0.
      change ((0 - 1) mod 256) with 255. lia. }
    rewrite Hn, E0. apply crccheck_traced_0.
  - assert (Hn : n = Z.to_nat (wrap8 len - 1)).
    { subst n. unfold wrap8. rewrite <- (Zminus_mod_idemp_l len 1 256).
      fold (wrap8 len). rewrite Z.mod_small by lia. reflexivity. }
    rewrite Hn. apply crccheck_traced_spec. lia.
Qed.

(** X2. Appending the CRC of a byte sequence to it gives a frame that
    [crccheck] accepts, whatever follows the frame in the buffer. *)
Theorem crccheck_accepts_appended_checksum body rest :
  (length body <= 254)%nat ->
  crccheck (body ++ [crc8_ccitt body] ++ rest) (Z.of_nat (length body) + 1) = true.
Proof.
  intros Hlen.
  rewrite crccheck_checksum_ok by (rewrite ?length_app; cbn [length]; lia).
  replace (Z.to_nat (Z.of_nat (length body) + 1)) with (length (body ++ [crc8_ccitt body]))
    by (rewrite length_app; cbn [length]; lia).
  rewrite app_assoc, take_app_length, checksum_ok_snoc. apply Z.eqb_refl.
Qed.

(** X3. A frame that passes [crccheck] no longer passes when one of its
    bytes, the checksum byte included, is replaced by a different byte. *)
Theorem crccheck_rejects_corrupted_byte pre b b' post rest :
  0 <= b < 256 -> 0 <= b' < 256 -> b <> b' ->
  (length (pre ++ b :: post) < 256)%nat ->
  crccheck (pre ++ b :: post ++ rest) (Z.of_nat (length (pre ++ b :: post))) = true ->
  crccheck (pre ++ b' :: post ++ rest) (Z.of_nat (length (pre ++ b :: post))) = false.
Proof.
  intros Hb Hb' Hne Hlen Hok.
  assert (Hl : length (pre ++ b' :: post) = length (pre ++ b :: post))
    by (rewrite !length_app; reflexivity).
  assert (Hpos : (1 <= length (pre ++ b :: post))%nat)
    by (rewrite length_app; cbn [length]; lia).
  rewrite crccheck_checksum_ok in Hok
    by (rewrite ?length_app in *; cbn [length] in *; rewrite ?length_app; lia).
  rewrite crccheck_checksum_ok
    by (rewrite ?length_app in *; cbn [length] in *; rewrite ?length_app; lia).
  rewrite Nat2Z.id in *.
  change (pre ++ b :: post ++ rest) with (pre ++ (b :: post) ++ rest) in Hok.
  change (pre ++ b' :: post ++ rest) with (pre ++ (b' :: post) ++ rest).
  rewrite app_assoc, take_app_length in Hok.
  rewrite app_assoc, <- Hl, take_app_length.
  destruct (rev post) as [|k tsop] eqn:Er.
  - apply (f_equal (@rev Z)) in Er. rewrite rev_involutive in Er. cbn in Er. subst post.
    rewrite checksum_ok_snoc in Hok |- *.
    apply Z.eqb_eq in Hok. apply Z.eqb_neq. congruence.
  - apply (f_equal (@rev Z)) in Er. rewrite rev_involutive in Er. cbn [rev] in Er. subst post.
    change (pre ++ b :: rev tsop ++ [k]) with (pre ++ (b :: rev tsop) ++ [k]) in Hok.
    change (pre ++ b' :: rev tsop ++ [k]) with (pre ++ (b' :: rev tsop) ++ [k]).
    rewrite app_assoc, checksum_ok_snoc in Hok |- *.
    apply Z.eqb_eq in Hok. apply Z.eqb_neq. intros E. rewrite Hok in E.
    unfold crc8_ccitt in E. rewrite !fold_left_app in E. cbn [fold_left] in E.
    apply crc8_fold_inj in E; try apply crc8_update_byte.
    apply crc8_update_inj_data in E; [congruence|exact Hb|exact Hb'].
Qed.

(** ** The packet pipeline *)

Section Further.

Variable IR_FACE_COUNT : nat.
Variable PIXEL_FACE_COUNT : nat.

Local Abbreviation pipeline_f := (processPendingIRPackets IR_FACE_COUNT).
Local Abbreviation run_loop_f := (run_loop IR_FACE_COUNT PIXEL_FACE_COUNT).
Local Abbreviation exec_f := (exec IR_FACE_COUNT PIXEL_FACE_COUNT).
Local Abbreviation started_f := (fun bufsize => run_init IR_FACE_COUNT (power_up IR_FACE_COUNT PIXEL_FACE_COUNT bufsize)).

Lemma processPendingIRPackets_view_any f w :
  face_view f (pipeline_f w) =
  if decide (f < IR_FACE_COUNT)%nat then process_face_on_view (face_view f w)
  else face_view f w.
Proof.
  unfold processPendingIRPackets.
  rewrite (for_loop_local face_view process_face).
  - destruct (decide (f < IR_FACE_COUNT)%nat).
    + rewrite decide_True by lia. apply process_face_same.
    + rewrite decide_False by lia. reflexivity.
  - intros f' g s Hne. apply process_face_other. exact Hne.
  - intros f' s1 s2 E. rewrite !process_face_same, E. reflexivity.
Qed.

Lemma ir_face_eta face :
  mk_ir_face (packet_ready face) (packet_len face) (packet_buffer face) = face.
Proof. destruct face. reflexivity. Qed.

(** What one pass can do to a face on the driver's side: nothing, or clear
    the ready flag. *)
Lemma process_face_on_view_shape oface ob k :
  let v' := process_face_on_view (oface, ob, k) in
  (v' = (oface, ob, k) \/
   (exists face, oface = Some face /\ packet_ready face = true /\
      v' = (Some (mk_ir_face false (packet_len face) (packet_buffer face)), ob, k + 1)) \/
   (exists face, oface = Some face /\ packet_ready face = true /\
      crccheck (packet_buffer face) (wrap8 (packet_len face)) = true /\
      (wrap8 (packet_len face) <? 2) = false /\
      (deref (packet_buffer face) 0 =? 1) = true /\
      v' = (oface,
            (fun b => mk_ir_data_buffer (data b) (wrap8 (packet_len face) - 1) 1) <$> ob, k))).
Proof.
  unfold process_face_on_view.
  destruct oface as [face|]; [|left; reflexivity].
  change (default inhabitant (Some face)) with face.
  change ((fun _ => mk_ir_face false (packet_len face) (packet_buffer face)) <$> Some face)
    with (Some (mk_ir_face false (packet_len face) (packet_buffer face))).
  destruct (packet_ready face) eqn:Hr; [|left; reflexivity].
  destruct (wrap8 (packet_len face) <? 2) eqn:Hl.
  { right. left. exists face. auto. }
  destruct (crccheck _ _) eqn:Hc; [|right; left; exists face; auto].
  destruct (deref _ 0 =? 1) eqn:Hh; [|right; left; exists face; auto].
  right. right. exists face. auto 10.
Qed.

(** X4. On the driver's side the pipeline can only clear the ready flag of
    a face: length and buffer stay, a face that was not ready does not
    become ready, a face is marked consumed at most once per run of the
    pipeline, and a face without a ready packet is not touched at all. *)
Theorem pipeline_only_clears_ready f w face :
  ir w !! f = Some face ->
  let w' := pipeline_f w in
  (exists r, ir w' !! f = Some (mk_ir_face r (packet_len face) (packet_buffer face)) /\
             (r = true -> packet_ready face = true)) /\
  mark_reads f w <= mark_reads f w' <= mark_reads f w + 1 /\
  (packet_ready face = false -> face_view f w' = face_view f w).
Proof.
  intros Hface w'.
  pose proof (processPendingIRPackets_view_any f w) as E. fold w' in E.
  destruct (decide (f < IR_FACE_COUNT)%nat) as [Hf|Hf].
  2:{ unfold face_view in E. injection E as E1 E2 E3. rewrite E1, E3, Hface.
      split; [|split; [lia|auto]].
      - exists (packet_ready face). rewrite ir_face_eta. auto.
      - intros _. unfold face_view. congruence. }
  unfold face_view at 2 in E. rewrite Hface in E.
  destruct (process_face_on_view_shape (Some face) (ir_data_buffers (loopstate_in w) !! f)
              (mark_reads f w)) as [H|[(fc & Hfc & Hr & H)|(fc & Hfc & Hr & _ & _ & _ & H)]];
    cbv zeta in H; rewrite H in E; unfold face_view in E; injection E as E1 E2 E3;
    try (injection Hfc as <-).
  - rewrite E1, E3. split; [|split; [lia|]].
    + exists (packet_ready face). rewrite ir_face_eta. auto.
    + intros _. unfold face_view. rewrite Hface. congruence.
  - rewrite E1, E3. split; [|split; [lia|congruence]].
    exists false. split; [reflexivity|discriminate].
  - rewrite E1, E3. split; [|split; [lia|congruence]].
    exists (packet_ready face). rewrite ir_face_eta. auto.
Qed.

Lemma process_face_on_view_idem v :
  process_face_on_view (process_face_on_view v) = process_face_on_view v.
Proof.
  destruct v as [[oface ob] k].
  destruct (process_face_on_view_shape oface ob k)
    as [H|[(fc & Hfc & Hr & H)|(fc & Hfc & Hr & Hc & Hl & Hh & H)]];
    cbv zeta in H.
  - rewrite H. exact H.
  - rewrite H. reflexivity.
  - rewrite H. subst oface. unfold process_face_on_view at 1.
    change (default inhabitant (Some fc)) with fc. rewrite Hr, Hl, Hc, Hh.
    destruct ob; reflexivity.
Qed.

Lemma loopstate_in_eta i :
  mk_loopstate_in (ir_data_buffers i) (in_buttonstate i) (in_millis i) (woke_flag i) = i.
Proof. destruct i. reflexivity. Qed.

(** X5. Running the pipeline a second time with nothing received in
    between changes neither the driver's faces nor [loopstate_in], and marks
    no frame consumed: a surfaced user-data frame is surfaced again with the
    same descriptor. *)
Theorem pipeline_idempotent w :
  let w1 := pipeline_f w in
  let w2 := pipeline_f w1 in
  ir w2 = ir w1 /\
  loopstate_in w2 = loopstate_in w1 /\
  forall f, mark_reads f w2 = mark_reads f w1.
Proof.
  intros w1 w2.
  assert (Hv : forall f, face_view f w2 = face_view f w1).
  { intros f. subst w2 w1. rewrite !processPendingIRPackets_view_any.
    destruct (decide (f < IR_FACE_COUNT)%nat); [|reflexivity].
    apply process_face_on_view_idem. }
  destruct (processPendingIRPackets_outside IR_FACE_COUNT w1)
    as (H1 & H2 & H3 & _).
  fold w2 in H1, H2, H3.
  split; [|split].
  - apply list_eq. intros f. specialize (Hv f). unfold face_view in Hv. congruence.
  - rewrite <- (loopstate_in_eta (loopstate_in w2)), <- (loopstate_in_eta (loopstate_in w1)).
    rewrite H1, H2, H3. f_equal.
    apply list_eq. intros f. specialize (Hv f). unfold face_view in Hv. congruence.
  - intros f. specialize (Hv f). unfold face_view in Hv. congruence.
Qed.

(** ** The clock *)

Lemma timer_256us_run_inv upds w :
  0 <= step_us w < 1000 ->
  0 <= step_us (timer_256us_run upds w) < 1000.
Proof. intros H. apply (timer_256us_run_spec upds w H). Qed.

(** X6. Once the accumulator has started at 0, the interrupts that run
    the millisecond callback are three or four interrupts apart: after one
    that did, the next two do not, and exactly one of the next four does. *)
Theorem tick_spacing pre u0 us2 us4 w0 :
  step_us w0 = 0 ->
  length us2 = 2%nat -> length us4 = 4%nat ->
  let w := timer_256us_run pre w0 in
  let w1 := timer_256us_callback_sei u0 w in
  ticks w1 = ticks w + 1 ->
  ticks (timer_256us_run us2 w1) = ticks w1 /\
  ticks (timer_256us_run us4 w1) = ticks w1 + 1.
Proof.
  intros H0 L2 L4 w w1 Htick.
  assert (Hw : 0 <= step_us w < 1000) by (apply timer_256us_run_inv; lia).
  destruct (timer_256us_spec u0 w Hw) as (Hw1 & E1). fold w1 in Hw1, E1.
  destruct (timer_256us_run_spec us2 w1 Hw1) as (H2 & E2).
  destruct (timer_256us_run_spec us4 w1 Hw1) as (H4 & E4).
  cbv zeta in *. fold (timer_256us_run us2 w1) in H2, E2.
  fold (timer_256us_run us4 w1) in H4, E4. rewrite L2 in E2. rewrite L4 in E4.
  split; lia.
Qed.

(** ** One pass of the loop *)

(** The input record a pass builds. *)
Lemma run_loop_log loopEntry w :
  let w0 := pipeline_f (updateMillisSnapshot w) in
  let i := mk_loopstate_in (ir_data_buffers (loopstate_in w0))
             (mk_buttonstate (bitflags (buttonstate w)) (clickcount (buttonstate w))
                (down (buttonstate w)))
             (millis w) (woke_flag (loopstate_in w)) in
  let w' := run_loop_f loopEntry w in
  exists new,
    Forall is_ir_call new /\
    new_calls w w' =
      (if sleepTimer w <=? millis w then sleep_calls else []) ++
      [Call_pixel_displayBufferedPixels] ++
      rev (map (fun p => Call_pixel_bufferedSetPixel (fst p) (snd p))
             (dirty_faces (loopstate_out w') 0 PIXEL_FACE_COUNT)) ++
      [Call_loopEntry i] ++ new.
Proof.
  intros w0 i w'.
  destruct (run_loop_spec IR_FACE_COUNT PIXEL_FACE_COUNT loopEntry w) as (Hc & Ho & _).
  destruct (processPendingIRPackets_logs IR_FACE_COUNT (updateMillisSnapshot w))
    as (new & Hn & Hf).
  cbv zeta in Hc, Ho. fold w0 in Hc, Ho, Hn. fold i in Hc, Ho. fold w' in Hc, Ho.
  rewrite Hn in Hc. cbn [updateMillisSnapshot calls set_millis_snapshot] in Hc.
  exists new. split; [exact Hf|].
  apply new_calls_app. rewrite Hc, Ho, <- !app_assoc. reflexivity.
Qed.

Lemma omap_loop_input_rev_writes (l : list (nat * pixelColor_t)) :
  omap sel_loop_input
    (rev (map (fun p => Call_pixel_bufferedSetPixel (fst p) (snd p)) l)) = [].
Proof.
  apply omap_none, Forall_forall. intros c Hin.
  apply in_rev, in_map_iff in Hin. destruct Hin as (q & <- & _). reflexivity.
Qed.

Lemma omap_ir_calls {B : Type} (sel : call -> option B) new :
  (forall f, sel (Call_irDataMarkPacketRead f) = None) ->
  (forall f len, sel (Call_crccheck f len) = None) ->
  Forall is_ir_call new -> omap sel new = [].
Proof.
  intros H1 H2 Hf. apply omap_none. eapply Forall_impl; [|exact Hf].
  intros c Hc. destruct c; cbn in Hc; try contradiction; auto.
Qed.

Lemma run_loop_extends loopEntry w :
  calls (run_loop_f loopEntry w) = new_calls w (run_loop_f loopEntry w) ++ calls w.
Proof.
  destruct (run_loop_calls IR_FACE_COUNT PIXEL_FACE_COUNT loopEntry w)
    as (new & i & _ & _ & Hc).
  rewrite app_comm_cons, app_assoc in Hc.
  change (Call_loopEntry i :: new ++ calls w) with ((Call_loopEntry i :: new) ++ calls w) in Hc.
  rewrite app_assoc in Hc.
  rewrite (new_calls_app _ _ _ Hc). exact Hc.
Qed.

Lemma run_loop_pixel_writes loopEntry w :
  pixel_writes (new_calls w (run_loop_f loopEntry w)) =
  dirty_faces (loopstate_out (run_loop_f loopEntry w)) 0 PIXEL_FACE_COUNT.
Proof.
  destruct (run_loop_log loopEntry w) as (new & Hf & Hn). cbv zeta in Hn.
  rewrite Hn. unfold pixel_writes. rewrite !omap_app, omap_pixel_writes.
  rewrite (omap_ir_calls sel_pixel_write new) by (auto || exact Hf).
  rewrite (omap_none sel_pixel_write (if _ : bool then _ else _))
    by (destruct (sleepTimer w <=? millis w); repeat constructor).
  cbn [omap app]. rewrite !app_nil_r. apply rev_involutive.
Qed.

Lemma run_loop_inputs_explicit loopEntry w :
  loop_inputs (run_loop_f loopEntry w) =
  loop_inputs w ++
  [mk_loopstate_in
     (ir_data_buffers (loopstate_in (pipeline_f (updateMillisSnapshot w))))
     (mk_buttonstate (bitflags (buttonstate w)) (clickcount (buttonstate w))
        (down (buttonstate w)))
     (millis w) (woke_flag (loopstate_in w))].
Proof.
  destruct (run_loop_log loopEntry w) as (new & Hf & Hn). cbv zeta in Hn.
  unfold loop_inputs. rewrite (run_loop_extends loopEntry w).
  rewrite Hn, !omap_app, omap_loop_input_rev_writes.
  rewrite (omap_ir_calls sel_loop_input new) by (auto || exact Hf).
  rewrite (omap_none sel_loop_input (if _ : bool then _ else _))
    by (destruct (sleepTimer w <=? millis w); repeat constructor).
  cbn [omap app]. rewrite rev_app_distr. reflexivity.
Qed.

(** X7. One pass makes its calls in this order: the pipeline's driver
    calls, the user callback (once, with the clock value and woke flag from
    the start of the pass), the writes of the dirty faces, the display flush
    (once, also when no face is dirty), and the calls of [sleep()] if the
    timer has expired.  The output record afterwards is what the callback
    returned. *)
Theorem run_loop_call_order loopEntry w :
  let w' := run_loop_f loopEntry w in
  exists i irs,
    Forall is_ir_call irs /\
    new_calls w w' =
      (if sleepTimer w <=? millis w then sleep_calls else []) ++
      [Call_pixel_displayBufferedPixels] ++
      rev (map (fun p => Call_pixel_bufferedSetPixel (fst p) (snd p))
             (dirty_faces (loopstate_out w') 0 PIXEL_FACE_COUNT)) ++
      [Call_loopEntry i] ++ irs /\
    loop_inputs w' = loop_inputs w ++ [i] /\
    in_millis i = millis w /\
    woke_flag i = woke_flag (loopstate_in w) /\
    loopstate_out w' = loopEntry i (ir w') (loopstate_out w).
Proof.
  intros w'. destruct (run_loop_log loopEntry w) as (new & Hf & Hn).
  cbv zeta in Hn. fold w' in Hn.
  destruct (run_loop_spec IR_FACE_COUNT PIXEL_FACE_COUNT loopEntry w)
    as (_ & Ho & _ & _ & _ & _ & Hir & _).
  cbv zeta in Ho, Hir. fold w' in Ho, Hir.
  eexists _, new. split; [exact Hf|]. split; [exact Hn|]. split.
  - apply run_loop_inputs_explicit.
  - split; [reflexivity|]. split; [reflexivity|]. rewrite Hir. exact Ho.
Qed.

Lemma timer_1000us_buttonstate upd w :
  buttonstate (timer_1000us_callback_sei upd w) = snd (upd (buttonstate w)).
Proof.
  unfold timer_1000us_callback_sei, incrementMillis1ms. world_simpl.
  destruct (upd (buttonstate w)) as [[|] b]; reflexivity.
Qed.

(** X8. The button state a pass hands to the callback carries the flags as
    the debounce routine last left them, and the pass clears them in the
    global state: flags raised by a tick between two passes are seen by the
    next pass and by no later one, while click count and down persist. *)
Theorem button_flags_delivered_once cb1 upd cb2 cb3 w :
  let cleared := mk_buttonstate 0 (clickcount (buttonstate w)) (down (buttonstate w)) in
  let pressed := snd (upd cleared) in
  exists i1 i2 i3,
    loop_inputs (exec_f [EvLoop cb1; EvTimer1000 upd; EvLoop cb2; EvLoop cb3] w) =
      loop_inputs w ++ [i1; i2; i3] /\
    in_buttonstate i1 =
      mk_buttonstate (bitflags (buttonstate w)) (clickcount (buttonstate w))
        (down (buttonstate w)) /\
    in_buttonstate i2 =
      mk_buttonstate (bitflags pressed) (clickcount pressed) (down pressed) /\
    in_buttonstate i3 = mk_buttonstate 0 (clickcount pressed) (down pressed).
Proof.
  intros cleared pressed. cbn [exec fold_left step].
  set (w1 := run_loop_f cb1 w).
  set (w2 := timer_1000us_callback_sei upd w1).
  set (w3 := run_loop_f cb2 w2).
  destruct (run_loop_spec IR_FACE_COUNT PIXEL_FACE_COUNT cb1 w)
    as (_ & _ & _ & _ & _ & _ & _ & Hb1 & _).
  destruct (run_loop_spec IR_FACE_COUNT PIXEL_FACE_COUNT cb2 w2)
    as (_ & _ & _ & _ & _ & _ & _ & Hb3 & _).
  cbv zeta in Hb1, Hb3. fold w1 in Hb1. fold w3 in Hb3.
  pose proof (timer_1000us_buttonstate upd w1) as Hb2. fold w2 in Hb2.
  rewrite Hb1 in Hb2. fold cleared in Hb2. fold pressed in Hb2.
  rewrite Hb2 in Hb3.
  destruct (timer_1000us_spec upd w1) as (Hc2 & _). cbv zeta in Hc2. fold w2 in Hc2.
  pose proof (run_loop_inputs_explicit cb1 w) as L1. fold w1 in L1.
  pose proof (run_loop_inputs_explicit cb2 w2) as L2. fold w3 in L2.
  pose proof (run_loop_inputs_explicit cb3 w3) as L3.
  assert (Hl2 : loop_inputs w2 = loop_inputs w1)
    by (unfold loop_inputs; rewrite Hc2; reflexivity).
  rewrite L3, L2, Hl2, L1.
  rewrite <- !app_assoc. cbn [app].
  eexists _, _, _. split; [reflexivity|]. cbn [in_buttonstate].
  rewrite Hb2, Hb3. cbn [bitflags clickcount down]. auto.
Qed.

(** X9. The core does not clear the dirty bit: the colour stored in the
    display buffer for a dirty face is the callback's colour with the bit
    still set, and if the next callback leaves the output record alone the
    same faces are written again. *)
Theorem dirty_bit_survives loopEntry w f :
  let w' := run_loop_f loopEntry w in
  (f < PIXEL_FACE_COUNT)%nat ->
  reserved (colors (loopstate_out w') !!! f) = true ->
  pixel_buffer w' !! f =
    (fun _ => colors (loopstate_out w') !!! f) <$> pixel_buffer w !! f /\
  pixel_writes (new_calls w' (run_loop_f idle_loop w')) = pixel_writes (new_calls w w').
Proof.
  intros w' Hf Hd.
  destruct (run_loop_spec IR_FACE_COUNT PIXEL_FACE_COUNT loopEntry w)
    as (_ & Ho & _ & _ & _ & _ & _ & _ & Hbuf).
  cbv zeta in Ho, Hbuf. fold w' in Ho, Hbuf. rewrite <- Ho in Hbuf.
  split.
  - rewrite Hbuf, Hd. rewrite (proj2 (Nat.ltb_lt f PIXEL_FACE_COUNT) Hf). reflexivity.
  - destruct (run_loop_spec IR_FACE_COUNT PIXEL_FACE_COUNT idle_loop w') as (_ & Ho2 & _).
    cbv zeta in Ho2.
    assert (Ho3 : loopstate_out (run_loop_f idle_loop w') = loopstate_out w') by exact Ho2.
    rewrite (run_loop_pixel_writes idle_loop w'), Ho3.
    symmetry. apply run_loop_pixel_writes.
Qed.

(** ** Across a run *)

Lemma sleeps_nonneg w : 0 <= sleeps w.
Proof. unfold sleeps. lia. Qed.

Lemma step_woke_iff_slept e w :
  woke_flag (loopstate_in w) = (if sleeps w =? 0 then 0 else 1) ->
  woke_flag (loopstate_in (step IR_FACE_COUNT PIXEL_FACE_COUNT e w)) =
  (if sleeps (step IR_FACE_COUNT PIXEL_FACE_COUNT e w) =? 0 then 0 else 1).
Proof.
  intros Inv. pose proof (sleeps_nonneg w) as Hs.
  destruct e as [upd|upd|loopEntry|g frame].
  1: pose proof (timer_step_spec IR_FACE_COUNT PIXEL_FACE_COUNT (EvTimer256 upd) upd w
                   (or_introl eq_refl)) as H.
  2: pose proof (timer_step_spec IR_FACE_COUNT PIXEL_FACE_COUNT (EvTimer1000 upd) upd w
                   (or_intror eq_refl)) as H.
  1,2: destruct H as (Hi & _ & _ & _ & [(Hc & _)|(Hc & _)]); cbv zeta in Hi, Hc;
       rewrite Hi;
       [ destruct (counts_same_calls _ _ Hc) as (_ & Es)
       | destruct (counts_tick _ _ Hc) as (_ & Es) ];
       rewrite Es; exact Inv.
  - destruct (run_loop_spec IR_FACE_COUNT PIXEL_FACE_COUNT loopEntry w)
      as (_ & _ & Hi & _).
    cbn [step]. cbv zeta in Hi. rewrite Hi. unfold sleeps at 1.
    rewrite (run_loop_filter IR_FACE_COUNT PIXEL_FACE_COUNT is_power_sleep)
      by apply blind_is_power_sleep.
    fold (sleeps w).
    destruct (sleepTimer w <=? millis w); cbn [woke_flag set_woke_flag app].
    + rewrite length_app. cbn [sleep_calls List.filter is_power_sleep length].
      unfold sleeps in Hs.
      destruct (Z.eqb_spec (Z.of_nat (1 + length (List.filter is_power_sleep (calls w)))) 0);
        [lia|reflexivity].
    + exact Inv.
  - destruct (ir_receive_spec g frame w) as (Hi & _ & Hc & _).
    cbn [step]. cbv zeta in Hi, Hc. rewrite Hi.
    destruct (counts_same_calls _ _ Hc) as (_ & Es). rewrite Es. exact Inv.
Qed.

(** X10. From startup on, the woke flag is 1 exactly when the loop has
    gone to sleep at least once, and 0 otherwise. *)
Theorem woke_flag_iff_slept bufsize es :
  let w := exec_f es (started_f bufsize) in
  woke_flag (loopstate_in w) = (if sleeps w =? 0 then 0 else 1).
Proof.
  cbv zeta.
  assert (H0 : woke_flag (loopstate_in (started_f bufsize)) =
               (if sleeps (started_f bufsize) =? 0 then 0 else 1)).
  { destruct (run_init_spec IR_FACE_COUNT PIXEL_FACE_COUNT bufsize) as (Hc & _).
    cbv zeta in Hc. unfold sleeps. rewrite Hc. cbn [List.filter is_power_sleep length].
    unfold run_init, postponeSleep, Timer_set. world_simpl.
    destruct (set_buffer_pointers_outside IR_FACE_COUNT
                (power_up IR_FACE_COUNT PIXEL_FACE_COUNT bufsize))
      as (_ & _ & _ & _ & _ & Hw).
    cbv zeta in Hw. rewrite Hw. reflexivity. }
  revert H0. generalize (started_f bufsize).
  induction es as [|e es IH]; intros w0 H0; [exact H0|].
  change (exec_f (e :: es) w0) with (exec_f es (step IR_FACE_COUNT PIXEL_FACE_COUNT e w0)).
  apply IH, step_woke_iff_slept, H0.
Qed.

Lemma devices_ok_push c cs :
  is_switch c = false -> devices_ok cs -> devices_ok (c :: cs).
Proof.
  unfold is_switch, devices_ok, ir_enabled, pixel_enabled.
  intros Hs (Hi & Hp & Ha).
  apply orb_false_iff in Hs. destruct Hs as (Hs & H4).
  apply orb_false_iff in Hs. destruct Hs as (Hs & H3).
  apply orb_false_iff in Hs. destruct Hs as (H1 & H2).
  cbn [last_switch always_on]. rewrite H1, H2, H3, H4. auto.
Qed.

Lemma devices_ok_app l cs :
  Forall (fun c => is_switch c = false) l -> devices_ok cs -> devices_ok (l ++ cs).
Proof.
  induction 1 as [|c l Hc _ IH]; intros Hok; [exact Hok|].
  cbn [app]. apply devices_ok_push; auto.
Qed.

Lemma devices_ok_sleep cs : devices_ok cs -> devices_ok (sleep_calls ++ cs).
Proof.
  unfold devices_ok, ir_enabled, pixel_enabled. intros (Hi & Hp & Ha).
  cbn. repeat split; try discriminate; exact Ha.
Qed.

Lemma step_devices_ok e w :
  devices_ok (calls w) -> devices_ok (calls (step IR_FACE_COUNT PIXEL_FACE_COUNT e w)).
Proof.
  intros Hok. destruct e as [upd|upd|loopEntry|g frame].
  1: pose proof (timer_step_spec IR_FACE_COUNT PIXEL_FACE_COUNT (EvTimer256 upd) upd w
                   (or_introl eq_refl)) as H.
  2: pose proof (timer_step_spec IR_FACE_COUNT PIXEL_FACE_COUNT (EvTimer1000 upd) upd w
                   (or_intror eq_refl)) as H.
  1,2: destruct H as (_ & _ & _ & _ & [(Hc & _)|(Hc & _)]); cbv zeta in Hc; rewrite Hc;
       [exact Hok | apply devices_ok_push; [reflexivity|exact Hok]].
  - destruct (run_loop_calls IR_FACE_COUNT PIXEL_FACE_COUNT loopEntry w)
      as (new & i & Hf & _ & Hc).
    cbn [step]. rewrite Hc.
    assert (Hin : devices_ok
              (Call_pixel_displayBufferedPixels
               :: rev (map (fun p => Call_pixel_bufferedSetPixel (fst p) (snd p))
                         (dirty_faces (loopstate_out (run_loop IR_FACE_COUNT PIXEL_FACE_COUNT loopEntry w))
                            0 PIXEL_FACE_COUNT)) ++
                  Call_loopEntry i :: new ++ calls w)).
    { apply devices_ok_push; [reflexivity|]. apply devices_ok_app.
      { apply Forall_forall. intros c Hin. apply in_rev, in_map_iff in Hin.
        destruct Hin as (q & <- & _). reflexivity. }
      apply devices_ok_push; [reflexivity|]. apply devices_ok_app; [|exact Hok].
      eapply Forall_impl; [|exact Hf]. intros c Hc0.
      destruct c; cbn in Hc0; try contradiction; reflexivity. }
    destruct (sleepTimer w <=? millis w); [apply devices_ok_sleep|]; exact Hin.
  - destruct (ir_receive_spec g frame w) as (_ & _ & Hc & _).
    cbn [step]. cbv zeta in Hc. rewrite Hc. exact Hok.
Qed.

(** X11. From startup on, every call of the user's setup and loop, of the
    pixel driver's write and flush and of the IR driver's mark-read is made
    with IR reception and pixels enabled, and both are enabled between
    events: [sleep()] switches them back on before it returns. *)
Theorem devices_on_when_used bufsize es :
  let cs := calls (exec_f es (started_f bufsize)) in
  ir_enabled cs = true /\ pixel_enabled cs = true /\ always_on cs.
Proof.
  cbv zeta. change (devices_ok (calls (exec_f es (started_f bufsize)))).
  assert (H0 : devices_ok (calls (started_f bufsize))).
  { destruct (run_init_spec IR_FACE_COUNT PIXEL_FACE_COUNT bufsize) as (Hc & _).
    cbv zeta in Hc. rewrite Hc. unfold devices_ok. cbn. repeat split; discriminate. }
  revert H0. generalize (started_f bufsize).
  induction es as [|e es IH]; intros w0 H0; [exact H0|].
  change (exec_f (e :: es) w0) with (exec_f es (step IR_FACE_COUNT PIXEL_FACE_COUNT e w0)).
  apply IH, step_devices_ok, H0.
Qed.

(** ** Descriptors and the frames behind them *)








(** X13. A frame [0x01 :: payload ++ [crc]] that arrives on a free face
    and fits its buffer is handed to the callback by the next pass of the
    loop: the input record's descriptor for the face has the ready flag set
    and length [length payload + 1], and the frame stays with the driver,
    still ready. *)
Theorem user_frame_delivered f w face d payload loopEntry :
  (f < IR_FACE_COUNT)%nat ->
  ir w !! f = Some face ->
  ir_data_buffers (loopstate_in w) !! f = Some d ->
  packet_ready face = false ->
  let frame := (0x01 :: payload) ++ [crc8_ccitt (0x01 :: payload)] in
  (length frame <= length (packet_buffer face))%nat ->
  (length frame < 256)%nat ->
  let w' := exec_f [EvIrPacket f frame; EvLoop loopEntry] w in
  exists i,
    loop_inputs w' = loop_inputs w ++ [i] /\
    ir_data_buffers i !! f =
      Some (mk_ir_data_buffer (data d) (Z.of_nat (length payload) + 1) 1) /\
    ir w' !! f =
      Some (mk_ir_face true (Z.of_nat (length frame))
              (frame ++ drop (length frame) (packet_buffer face))).
Proof.
  intros Hf Hface Hd Hr frame Hfit Hlen w'.
  set (face' := mk_ir_face true (Z.of_nat (length frame))
                  (frame ++ drop (length frame) (packet_buffer face))).
  set (w1 := ir_receive f frame w).
  assert (Hw1 : ir w1 !! f = Some face' /\
                loopstate_in w1 = loopstate_in w /\ calls w1 = calls w).
  { subst w1. unfold ir_receive.
    rewrite (list_lookup_total_correct _ _ _ Hface), Hr.
    rewrite (proj2 (Nat.ltb_ge _ _) Hfit). cbn [orb ir set_ir loopstate_in calls].
    rewrite list_lookup_insert_eq by (eapply lookup_lt_Some; exact Hface). auto. }
  destruct Hw1 as (Hface1 & Hin1 & Hc1).
  assert (Hw8 : wrap8 (packet_len face') = Z.of_nat (length frame))
    by (unfold face'; cbn [packet_len]; apply wrap8_small; lia).
  assert (Hfr : frame_of face' = frame).
  { unfold frame_of. rewrite Hw8, Nat2Z.id. apply take_app_length. }
  assert (Hv : valid_user_frame (frame_of face') = true).
  { rewrite Hfr. unfold valid_user_frame. subst frame.
    rewrite checksum_ok_snoc, Z.eqb_refl, length_app. cbn [length app].
    rewrite (proj2 (Z.leb_le 2 _)) by lia. reflexivity. }
  pose proof (pipeline_routing IR_FACE_COUNT f (updateMillisSnapshot w1) face' Hf Hface1
                eq_refl) as E.
  rewrite Hv, Hw8 in E. world_simpl_in E. rewrite Hin1, Hd in E.
  specialize (E ltac:(cbn [packet_buffer face']; rewrite length_app; lia)).
  unfold face_view in E. injection E as E1 E2 _.
  destruct (run_loop_spec IR_FACE_COUNT PIXEL_FACE_COUNT loopEntry w1)
    as (_ & _ & _ & _ & _ & _ & Hir & _).
  cbv zeta in Hir.
  eexists. split; [|split].
  - subst w'. cbn [exec fold_left step]. fold w1.
    rewrite (run_loop_inputs_explicit loopEntry w1).
    unfold loop_inputs at 1. rewrite Hc1. reflexivity.
  - cbn [ir_data_buffers]. rewrite E2. cbn [fmap option_fmap option_map].
    subst frame. rewrite length_app. cbn [length].
    do 3 f_equal. lia.
  - subst w'. cbn [exec fold_left step]. fold w1. rewrite Hir. exact E1.
Qed.

End Further.

(** * The further properties at concrete inputs *)

(** X3 on [frame_HI] with its payload byte 'I' replaced by 'J'. *)
Lemma crccheck_rejects_corrupted_byte_witness :
  crccheck ([0x01; 72] ++ 74 :: [75] ++ []) (Z.of_nat (length ([0x01; 72] ++ 73 :: [75]))) = false.
Proof.
  apply (crccheck_rejects_corrupted_byte [0x01; 72] 73 74 [75] []).
  - lia.
  - lia.
  - lia.
  - cbn. lia.
  - vm_compute. reflexivity.
Defined.

(** X2 on the header and payload of [frame_HI]. *)
Lemma crccheck_accepts_appended_checksum_witness :
  crccheck ([0x01; 72; 73] ++ [crc8_ccitt [0x01; 72; 73]] ++ [0; 0])
    (Z.of_nat (length [0x01; 72; 73]) + 1) = true.
Proof.
  apply (crccheck_accepts_appended_checksum [0x01; 72; 73] [0; 0]).
  cbn. lia.
Defined.

(** X4 on the corrupted frame on face 2: the ready flag is cleared, length
    and buffer stay. *)
Lemma pipeline_only_clears_ready_witness :
  exists r,
    ir (processPendingIRPackets 6 tile_with_bad_HI) !! 2%nat =
      Some (mk_ir_face r (packet_len (mk_ir_face true 4 (frame_HI_bad ++ [0; 0; 0; 0])))
              (packet_buffer (mk_ir_face true 4 (frame_HI_bad ++ [0; 0; 0; 0])))) /\
    (r = true -> packet_ready (mk_ir_face true 4 (frame_HI_bad ++ [0; 0; 0; 0])) = true).
Proof.
  apply (pipeline_only_clears_ready 6 2 tile_with_bad_HI
           (mk_ir_face true 4 (frame_HI_bad ++ [0; 0; 0; 0]))).
  reflexivity.
Defined.

(** X6 after three interrupts: the fourth runs the callback, the fifth and
    sixth do not, and one of the fifth to eighth does. *)
Lemma tick_spacing_witness :
  ticks (timer_256us_run (repeat quiet_debounce 2)
           (timer_256us_callback_sei quiet_debounce
              (timer_256us_run (repeat quiet_debounce 3) tile_started))) =
  ticks (timer_256us_callback_sei quiet_debounce
           (timer_256us_run (repeat quiet_debounce 3) tile_started)) /\
  ticks (timer_256us_run (repeat quiet_debounce 4)
           (timer_256us_callback_sei quiet_debounce
              (timer_256us_run (repeat quiet_debounce 3) tile_started))) =
  ticks (timer_256us_callback_sei quiet_debounce
           (timer_256us_run (repeat quiet_debounce 3) tile_started)) + 1.
Proof.
  apply (tick_spacing (repeat quiet_debounce 3) quiet_debounce
           (repeat quiet_debounce 2) (repeat quiet_debounce 4) tile_started).
  - reflexivity.
  - reflexivity.
  - reflexivity.
  - vm_compute. reflexivity.
Defined.


(** X9 with [paint_loop] on face 0. *)
Lemma dirty_bit_survives_witness :
  pixel_buffer (run_loop 6 6 paint_loop tile_started) !! 0%nat =
    (fun _ => colors (loopstate_out (run_loop 6 6 paint_loop tile_started)) !!! 0%nat)
      <$> pixel_buffer tile_started !! 0%nat /\
  pixel_writes (new_calls (run_loop 6 6 paint_loop tile_started)
                  (run_loop 6 6 idle_loop (run_loop 6 6 paint_loop tile_started))) =
  pixel_writes (new_calls tile_started (run_loop 6 6 paint_loop tile_started)).
Proof.
  apply (dirty_bit_survives 6 6 paint_loop tile_started 0).
  - lia.
  - vm_compute. reflexivity.
Defined.

(** X13 with the payload 'H','I' on face 2 of the tile just started. *)
Lemma user_frame_delivered_witness :
  exists i,
    loop_inputs (exec 6 6 [EvIrPacket 2 ((0x01 :: [72; 73]) ++ [crc8_ccitt (0x01 :: [72; 73])]);
                           EvLoop idle_loop] tile_started) =
      loop_inputs tile_started ++ [i] /\
    ir_data_buffers i !! 2%nat =
      Some (mk_ir_data_buffer (data (mk_ir_data_buffer (PacketBuffer 2 1) 0 0))
              (Z.of_nat (length [72; 73]) + 1) 1) /\
    ir (exec 6 6 [EvIrPacket 2 ((0x01 :: [72; 73]) ++ [crc8_ccitt (0x01 :: [72; 73])]);
                  EvLoop idle_loop] tile_started) !! 2%nat =
      Some (mk_ir_face true
              (Z.of_nat (length ((0x01 :: [72; 73]) ++ [crc8_ccitt (0x01 :: [72; 73])])))
              (((0x01 :: [72; 73]) ++ [crc8_ccitt (0x01 :: [72; 73])]) ++
               drop (length ((0x01 :: [72; 73]) ++ [crc8_ccitt (0x01 :: [72; 73])]))
                 (packet_buffer (mk_ir_face false 0 (replicate 8 0))))).
Proof.
  apply (user_frame_delivered 6 6 2 tile_started (mk_ir_face false 0 (replicate 8 0))
           (mk_ir_data_buffer (PacketBuffer 2 1) 0 0) [72; 73] idle_loop).
  - lia.
  - reflexivity.
  - reflexivity.
  - reflexivity.
  - cbn. lia.
  - cbn. lia.
Defined.
